(** * Optimistic response reconciliation and resilient requests

    A shallow embedding of the golf-scheduler mobile client's core:
    - [Api]: the REST request helper with bounded exponential back-off
      ([RETRY_CONFIG], [isRetryableError], [calculateDelay], [apiRequest]);
    - [GolfUtils]: [findUserResponse];
    - [Sessions]: the repository merge done by [useGolfSessions];
    - [Hook]: [useSessionResponse] (overlay, submission mark, last error,
      the three edit handlers).

    JavaScript strings are modelled by [string] (code units below 256),
    JS objects used as dictionaries by [gmap string _] (keys are assumed not
    to collide with members of [Object.prototype]), [undefined]/[null] by
    [None], numbers by [Z] (all values that occur are small integers). *)

From Stdlib Require Import ZArith Lia List Ascii String Bool DecimalString.
From stdpp Require Import base option gmap strings.
Import ListNotations.
Open Scope string_scope.

(** ** JavaScript string primitives *)

Module JsString.

(** [String.prototype.toLowerCase] on one code unit below 256:
    A-Z and the Latin-1 capitals (except the multiplication sign). *)
Definition lowerChar (c : ascii) : ascii :=
  let n := nat_of_ascii c in
  if ((65 <=? n) && (n <=? 90))%nat
     || ((192 <=? n) && (n <=? 222) && negb (n =? 215))%nat
  then ascii_of_nat (n + 32) else c.

Fixpoint toLowerCase (s : string) : string :=
  match s with
  | EmptyString => EmptyString
  | String c s' => String (lowerChar c) (toLowerCase s')
  end.

(** [s.startsWith(p)]. *)
Fixpoint startsWith (s p : string) {struct p} : bool :=
  match p with
  | EmptyString => true
  | String a p' =>
      match s with
      | EmptyString => false
      | String b s' => Ascii.eqb a b && startsWith s' p'
      end
  end.

(** [s.includes(sub)]: [sub] starts at some position of [s]. *)
Fixpoint includes (s sub : string) : bool :=
  startsWith s sub ||
  match s with
  | EmptyString => false
  | String _ s' => includes s' sub
  end.

(** White space and line terminators among the code units below 256:
    TAB, LF, VT, FF, CR, SPACE and NBSP. *)
Definition isWhiteSpace (c : ascii) : bool :=
  let n := nat_of_ascii c in
  ((9 <=? n) && (n <=? 13) || (n =? 32) || (n =? 160))%nat.

Fixpoint trimStart (s : string) : string :=
  match s with
  | EmptyString => EmptyString
  | String c s' => if isWhiteSpace c then trimStart s' else s
  end.

(** [trimEnd] keeps a character when it is not white space or when
    something other than white space follows it. *)
Fixpoint trimEnd (s : string) : string :=
  match s with
  | EmptyString => EmptyString
  | String c s' =>
      match trimEnd s' with
      | EmptyString => if isWhiteSpace c then EmptyString else String c EmptyString
      | t => String c t
      end
  end.

Definition trim (s : string) : string := trimEnd (trimStart s).

(** JS truthiness of a string: the empty string is falsy. *)
Definition truthy (s : string) : bool :=
  match s with EmptyString => false | _ => true end.

(** [a || b] where [a] may be [undefined] or a string. *)
Definition orElse (a : option string) (b : string) : string :=
  match a with
  | Some s => if truthy s then s else b
  | None => b
  end.

(** Template literal rendering of an integer. *)
Definition ofZ (z : Z) : string := NilZero.string_of_int (Z.to_int z).

(** All characters of a string satisfy a test. *)
Fixpoint allChars (p : ascii -> bool) (s : string) : bool :=
  match s with
  | EmptyString => true
  | String c s' => p c && allChars p s'
  end.

Definition firstChar (s : string) : option ascii :=
  match s with
  | EmptyString => None
  | String c _ => Some c
  end.

Fixpoint lastChar (s : string) : option ascii :=
  match s with
  | EmptyString => None
  | String c EmptyString => Some c
  | String _ s' => lastChar s'
  end.

(** Neither the first nor the last character is white space. *)
Definition noSurroundingWhiteSpace (s : string) : bool :=
  match firstChar s, lastChar s with
  | Some a, Some b => negb (isWhiteSpace a) && negb (isWhiteSpace b)
  | _, _ => true
  end.

End JsString.

(** ** lib/api (REST version): retry engine *)

Module Api.
Import JsString.

Record RetryConfig := {
  maxRetries : nat;
  baseDelayMs : Z;
  maxDelayMs : Z;
  backoffMultiplier : Z;
  retryableErrors : list string
}.

Definition RETRY_CONFIG : RetryConfig := {|
  maxRetries := 4;
  baseDelayMs := 1500;
  maxDelayMs := 15000;
  backoffMultiplier := 2;
  retryableErrors :=
    [ "Network request failed";
      "fetch failed";
      "timeout";
      "ECONNRESET";
      "ETIMEDOUT";
      "Failed to fetch";
      "NetworkError";
      "TypeError: fetch failed";
      "TypeError: Network request failed";
      "Load failed";
      "Connection failed";
      "Request timeout";
      "Service Unavailable" ]
|}.

(** A thrown value; [message] is [None] when the value has no message. *)
Record JsError := { message : option string }.

(** Parsed JSON body: the [error] field the helper looks at, and the rest. *)
Record Json := { error : option string; payload : string }.

(** A fetch [Response]: [json] is [inr e] when [response.json()] rejects
    with [e]. *)
Record Response := {
  status : Z;
  ok : bool;
  json : Json + JsError
}.

(** What one call of [fetch] does: reject or resolve. *)
Definition FetchResult : Type := JsError + Response.

Definition mkError (msg : string) : JsError := {| message := Some msg |}.

(** [isRetryableError(error, response?)]. *)
Definition isRetryableError (err : JsError) (response : option Response) : bool :=
  let errorMessage :=
    orElse (option_map toLowerCase (message err)) "" in
  let hasRetryableMessage :=
    existsb (fun retryableError =>
               includes errorMessage (toLowerCase retryableError))
            (retryableErrors RETRY_CONFIG) in
  let hasRetryableStatus :=
    match response with
    | Some r =>
        (status r =? 502)%Z || (status r =? 503)%Z
        || (status r =? 504)%Z || (status r =? 0)%Z
    | None => false
    end in
  hasRetryableMessage || hasRetryableStatus || false.

(** [calculateDelay(attempt)]. *)
Definition calculateDelay (attempt : nat) : Z :=
  let delay :=
    (baseDelayMs RETRY_CONFIG
     * backoffMultiplier RETRY_CONFIG ^ Z.of_nat attempt)%Z in
  Z.min delay (maxDelayMs RETRY_CONFIG).

(** Observable steps of one [apiRequest] call. *)
Inductive Event :=
| Sleep (ms : Z)
| Fetch (attempt : nat).

(** How [apiRequest] ends: it returns the parsed body or throws
    [lastError] (which is [undefined] only if no attempt ran). *)
Inductive Outcome :=
| Returned (data : Json)
| Thrown (lastError : option JsError).

(** The error built from a response that is not ok. *)
Definition httpError (response : Response) : JsError :=
  let errorData :=
    match json response with
    | inl j => j
    | inr _ => {| error := Some "Unknown error"; payload := "" |}
    end in
  mkError (orElse (error errorData) ("HTTP " ++ ofZ (status response))).

Section Request.
(** The network: what the [attempt]-th call of [fetch] does. *)
Variable fetch : nat -> FetchResult.

(** The [for] loop of [apiRequest]; [remaining] counts the iterations
    left, [maxRetries + 1 - attempt]. *)
Fixpoint retryLoop (remaining attempt : nat)
         (lastError : option JsError) (lastResponse : option Response)
         (trace : list Event) : Outcome * list Event :=
  match remaining with
  | O => (Thrown lastError, trace)
  | S remaining' =>
      let trace :=
        if (0 <? attempt)%nat
        then (trace ++ [Sleep (calculateDelay (attempt - 1))])%list
        else trace in
      let trace := (trace ++ [Fetch attempt])%list in
      (* the [catch] block *)
      let catch (err : JsError) (lastResponse : option Response) :=
        if negb (isRetryableError err lastResponse)
           || (attempt =? maxRetries RETRY_CONFIG)%nat
        then (Thrown (Some err), trace)
        else retryLoop remaining' (S attempt) (Some err) lastResponse trace in
      match fetch attempt with
      | inl err => catch err lastResponse
      | inr response =>
          let lastResponse := Some response in
          if negb (ok response) then
            let err := httpError response in
            if negb (isRetryableError err (Some response))
               || (attempt =? maxRetries RETRY_CONFIG)%nat
            then catch err lastResponse
            else retryLoop remaining' (S attempt) (Some err) lastResponse trace
          else
            match json response with
            | inl data => (Returned data, trace)
            | inr err => catch err lastResponse
            end
      end
  end.

Definition apiRequest : Outcome * list Event :=
  retryLoop (S (maxRetries RETRY_CONFIG)) 0 None None [].
End Request.

(** What one iteration appends to the trace. *)
Definition extend (trace : list Event) (attempt : nat) : list Event :=
  ((if (0 <? attempt)%nat
    then trace ++ [Sleep (calculateDelay (attempt - 1))]
    else trace) ++ [Fetch attempt])%list.

(** Reading a trace. *)
Definition attempts (trace : list Event) : nat :=
  List.length (List.filter (fun e => match e with Fetch _ => true | _ => false end) trace).

Fixpoint delays (trace : list Event) : list Z :=
  match trace with
  | [] => []
  | Sleep ms :: t => ms :: delays t
  | Fetch _ :: t => delays t
  end.

Definition totalDelay (trace : list Event) : Z :=
  fold_right Z.add 0%Z (delays trace).

(** The failure raised inside the [try] block by one attempt, if any. *)
Definition failureOf (r : FetchResult) : option JsError :=
  match r with
  | inl err => Some err
  | inr response =>
      if negb (ok response) then Some (httpError response)
      else match json response with
           | inl _ => None
           | inr err => Some err
           end
  end.

Definition responseOf (r : FetchResult) : option Response :=
  match r with inl _ => None | inr response => Some response end.

(** An attempt fails with a retryable (transient) error. *)
Definition transientFailure (r : FetchResult) : Prop :=
  exists err, failureOf r = Some err /\
              isRetryableError err (responseOf r) = true.

End Api.

(** ** lib/api (GraphQL version): the data model *)

Inductive ResponseStatus := IN | OUT | UNDECIDED.
Inductive TransportType := WALKING | RIDING.

Definition statusEqb (a b : ResponseStatus) : bool :=
  match a, b with
  | IN, IN | OUT, OUT | UNDECIDED, UNDECIDED => true
  | _, _ => false
  end.

Module UserRef.
Record t := mk { id : string; nickname : string }.
End UserRef.

(** One element of [GolfSession['responses']]. *)
Module Response.
Record t := mk {
  id : string;
  status : ResponseStatus;
  note : option string;
  transport : option TransportType;
  user : UserRef.t
}.
End Response.

Module GolfUtils.
(** [responses.find(r => r.user.id === userId) || null]. *)
Definition findUserResponse (responses : list Response.t) (userId : string)
  : option Response.t :=
  List.find (fun r => String.eqb (UserRef.id (Response.user r)) userId) responses.
End GolfUtils.

(** A value caught by [catch (err)]: an [Error] with its message, or
    anything else. *)
Inductive Caught :=
| ErrorObject (message : string)
| OtherValue.

(** [err instanceof Error ? err.message : fallback]. *)
Definition messageOf (err : Caught) (fallback : string) : string :=
  match err with
  | ErrorObject m => m
  | OtherValue => fallback
  end.

(** The [{ success, error? }] part of what the mutation wrappers return
    (the echoed response is not read by the hook). *)
Module Result.
Record t := mk { success : bool; error : option string }.
End Result.

(** ** hooks/useGolfSessions: the repository merge *)

Module Sessions.
(** [submitResponse] on the responses of the session concerned;
    [api] is what [sessionApi.submitResponse] did. *)
Definition submitResponse (responses : list Response.t) (userId : string)
           (api : Caught + Response.t) : list Response.t * Result.t :=
  match api with
  | inr response =>
      let filteredResponses :=
        List.filter (fun r => negb (String.eqb (UserRef.id (Response.user r)) userId))
                    responses in
      ((filteredResponses ++ [response])%list, Result.mk true None)
  | inl err =>
      (responses, Result.mk false (Some (messageOf err "Failed to submit response")))
  end.

(** [deleteResponse]; [api] is [inl err] when [sessionApi.deleteResponse]
    threw [err]. *)
Definition deleteResponse (responses : list Response.t) (userId : string)
           (api : Caught + unit) : list Response.t * Result.t :=
  match api with
  | inr _ =>
      (List.filter (fun r => negb (String.eqb (UserRef.id (Response.user r)) userId))
                   responses,
       Result.mk true None)
  | inl err =>
      (responses, Result.mk false (Some (messageOf err "Failed to delete response")))
  end.
End Sessions.

(** ** hooks/useSessionResponse *)

Module Hook.
Import JsString.

(** An entry of [optimisticResponses]. The declared type has a
    [transport], the restore after a failed toggle-off writes none. *)
Module Entry.
Record t := mk {
  status : ResponseStatus;
  note : string;
  transport : option TransportType
}.
End Entry.

(** A pending [setTimeout] whose callback deletes the overlay entry of
    [userId]. *)
Module Timer.
Record t := mk { remainingMs : Z; userId : string }.
End Timer.

(** The hook's React state ([editingNotes] is not involved here), with
    the timers it has scheduled. *)
Record State := mkState {
  optimisticResponses : gmap string Entry.t;
  submittingResponse : option string;
  error : option string;
  timers : list Timer.t
}.

Definition initial : State := mkState ∅ None None [].

Definition setOptimisticResponses (f : gmap string Entry.t -> gmap string Entry.t)
           (st : State) : State :=
  mkState (f (optimisticResponses st)) (submittingResponse st) (error st) (timers st).

Definition setSubmittingResponse (v : option string) (st : State) : State :=
  mkState (optimisticResponses st) v (error st) (timers st).

Definition setError (v : option string) (st : State) : State :=
  mkState (optimisticResponses st) (submittingResponse st) v (timers st).

Definition setTimeout (userId : string) (ms : Z) (st : State) : State :=
  mkState (optimisticResponses st) (submittingResponse st) (error st)
          (timers st ++ [Timer.mk ms userId])%list.

(** [prev => { const newState = { ...prev }; delete newState[userId]; ... }] *)
Definition clearEntry (userId : string) : State -> State :=
  setOptimisticResponses (delete userId).

(** [prev => ({ ...prev, [userId]: entry })] *)
Definition putEntry (userId : string) (entry : Entry.t) : State -> State :=
  setOptimisticResponses (<[userId := entry]>).

(** Time passes: timers that are due run their callback, in the order
    they were scheduled. *)
Definition advance (ms : Z) (st : State) : State :=
  let due := List.filter (fun t => (Timer.remainingMs t <=? ms)%Z) (timers st) in
  let waiting := List.filter (fun t => negb (Timer.remainingMs t <=? ms)%Z) (timers st) in
  let st' := fold_left (fun s t => clearEntry (Timer.userId t) s) due st in
  mkState (optimisticResponses st') (submittingResponse st') (error st')
          (map (fun t => Timer.mk (Timer.remainingMs t - ms) (Timer.userId t)) waiting).

Section WithSession.
(** [session.responses] as the handler's closure sees it. *)
Variable responses : list Response.t.

Definition getUserResponse (st : State) (userId : string) : option Response.t :=
  match optimisticResponses st !! userId with
  | Some entry =>
      let serverResponse := GolfUtils.findUserResponse responses userId in
      Some (Response.mk
              (orElse (option_map Response.id serverResponse)
                      ("optimistic-" ++ userId))
              (Entry.status entry)
              (Some (Entry.note entry))
              (Entry.transport entry)
              (match serverResponse with
               | Some r => Response.user r
               | None => UserRef.mk userId ""
               end))
  | None => GolfUtils.findUserResponse responses userId
  end.
End WithSession.

(** The status of the user's effective response, if there is one. *)
Definition effectiveStatus (responses : list Response.t) (st : State)
           (userId : string) : option ResponseStatus :=
  option_map Response.status (getUserResponse responses st userId).

Definition isSubmitting (st : State) (userId : string) : bool :=
  match submittingResponse st with
  | Some u => String.eqb u userId
  | None => false
  end.

Definition clearError : State -> State := setError None.

(** The argument of [submitResponse]. *)
Module Payload.
Record t := mk {
  userId : string;
  status : ResponseStatus;
  note : string;
  transport : TransportType
}.
End Payload.

(** The mutation a handler awaits; [session.id], the same in every call,
    is left out. *)
Inductive Mutation :=
| SubmitMutation (responseData : Payload.t)
| DeleteMutation (userId : string).

(** How the awaited call settles. *)
Inductive Settled :=
| Resolved (result : Result.t)
| Rejected (err : Caught).

Definition noteOr (r : option Response.t) : string :=
  orElse (r ≫= Response.note) "".

Definition transportOr (r : option Response.t) : TransportType :=
  match r ≫= Response.transport with
  | Some t => t
  | None => WALKING
  end.

Definition statusOr (r : option Response.t) : ResponseStatus :=
  match r with
  | Some c => Response.status c
  | None => UNDECIDED
  end.

(** *** handleStatusClick *)

(** What the part after the [await] still needs. *)
Inductive StatusPending :=
| ToggleOff (currentResponse : option Response.t)
| SetStatus.

(** Up to the [await]. *)
Definition handleStatusClick_start (responses : list Response.t) (st : State)
           (userId : string) (status : ResponseStatus)
  : State * Mutation * StatusPending :=
  let st1 := setError None (setSubmittingResponse (Some userId) st) in
  let currentResponse := getUserResponse responses st userId in
  let note := noteOr currentResponse in
  let transport := transportOr currentResponse in
  let shouldRemoveResponse :=
    match currentResponse with
    | Some c => statusEqb (Response.status c) status
    | None => false
    end in
  if shouldRemoveResponse then
    (clearEntry userId st1, DeleteMutation userId, ToggleOff currentResponse)
  else
    (putEntry userId (Entry.mk status note (Some transport)) st1,
     SubmitMutation (Payload.mk userId status note transport),
     SetStatus).

(** From the [await] to the end, [finally] included. *)
Definition handleStatusClick_settle (pending : StatusPending) (userId : string)
           (answer : Settled) (st : State) : State * Result.t :=
  let '(st', result) :=
    match answer with
    | Resolved result =>
        match pending with
        | ToggleOff currentResponse =>
            if Result.success result then (st, result)
            else
              match currentResponse with
              | Some c =>
                  (putEntry userId
                     (Entry.mk (Response.status c)
                               (orElse (Response.note c) "") None) st,
                   result)
              | None => (st, result)
              end
        | SetStatus =>
            if Result.success result then (clearEntry userId st, result)
            else (clearEntry userId st, result)
        end
    | Rejected err =>
        let message := messageOf err "Failed to update response" in
        (clearEntry userId (setError (Some message) st),
         Result.mk false (Some message))
    end in
  (setSubmittingResponse None st', result).

Definition handleStatusClick (responses : list Response.t) (st : State)
           (userId : string) (status : ResponseStatus) (answer : Settled)
  : State * Result.t * Mutation :=
  let '(st1, mutation, pending) :=
    handleStatusClick_start responses st userId status in
  let '(st2, result) := handleStatusClick_settle pending userId answer st1 in
  (st2, result, mutation).

(** *** handleNoteChange *)

Definition handleNoteChange_start (responses : list Response.t) (st : State)
           (userId : string) (note : string) : State * Mutation :=
  let st1 := setError None st in
  let currentResponse := getUserResponse responses st userId in
  let status := statusOr currentResponse in
  let transport := transportOr currentResponse in
  let trimmedNote := trim note in
  (putEntry userId (Entry.mk status trimmedNote (Some transport)) st1,
   SubmitMutation (Payload.mk userId status trimmedNote transport)).

Definition handleNoteChange_settle (userId : string) (answer : Settled)
           (st : State) : State * Result.t :=
  match answer with
  | Resolved result =>
      if Result.success result then (clearEntry userId st, result)
      else (st, result)
  | Rejected err =>
      let message := messageOf err "Failed to update note" in
      (clearEntry userId (setError (Some message) st),
       Result.mk false (Some message))
  end.

Definition handleNoteChange (responses : list Response.t) (st : State)
           (userId : string) (note : string) (answer : Settled)
  : State * Result.t * Mutation :=
  let '(st1, mutation) := handleNoteChange_start responses st userId note in
  let '(st2, result) := handleNoteChange_settle userId answer st1 in
  (st2, result, mutation).

(** *** handleTransportChange *)

Definition handleTransportChange_start (responses : list Response.t) (st : State)
           (userId : string) (transport : TransportType) : State * Mutation :=
  let st1 := setError None st in
  let currentResponse := getUserResponse responses st userId in
  let status := statusOr currentResponse in
  let note := noteOr currentResponse in
  (putEntry userId (Entry.mk status note (Some transport)) st1,
   SubmitMutation (Payload.mk userId status note transport)).

Definition handleTransportChange_settle (userId : string) (answer : Settled)
           (st : State) : State * Result.t :=
  match answer with
  | Resolved result =>
      if Result.success result then (setTimeout userId 100 st, result)
      else (clearEntry userId st, result)
  | Rejected err =>
      let message := messageOf err "Failed to update transport" in
      (clearEntry userId (setError (Some message) st),
       Result.mk false (Some message))
  end.

Definition handleTransportChange (responses : list Response.t) (st : State)
           (userId : string) (transport : TransportType) (answer : Settled)
  : State * Result.t * Mutation :=
  let '(st1, mutation) :=
    handleTransportChange_start responses st userId transport in
  let '(st2, result) := handleTransportChange_settle userId answer st1 in
  (st2, result, mutation).

End Hook.

(** ** Concrete inputs used to exercise the definitions *)

Module Examples.
(** A network that is down: every [fetch] rejects. *)
Definition networkDown : nat -> Api.FetchResult :=
  fun _ => inl (Api.mkError "Network request failed").

(** A 404 answer without an [error] field in its body. *)
Definition notFound : Api.Response :=
  {| Api.status := 404; Api.ok := false;
     Api.json := inl {| Api.error := None; Api.payload := "" |} |}.

(** A 408 answer whose body names the time-out. *)
Definition requestTimeout : Api.Response :=
  {| Api.status := 408; Api.ok := false;
     Api.json := inl {| Api.error := Some "Request Timeout"; Api.payload := "" |} |}.

Definition alice : UserRef.t := UserRef.mk "u1" "Al".

(** Alice is in, riding, with a note. *)
Definition ridingIn : Response.t :=
  Response.mk "r1" IN (Some "bring cart") (Some RIDING) alice.

(** A record of Alice whose [id] is the empty string. *)
Definition emptyId : Response.t :=
  Response.mk "" OUT None None alice.

(** An overlay entry for Alice is pending. *)
Definition pendingIn : Hook.State :=
  Hook.putEntry "u1" (Hook.Entry.mk IN "" (Some WALKING)) Hook.initial.



Definition deleteFailed : Result.t :=
  Result.mk false (Some "Failed to delete response").

Definition succeeded : Result.t := Result.mk true None.
End Examples.

(** ** The wording of the specification, for comparison *)

Module Spec.
Import JsString.

(** "[msg] contains [sig], case-insensitively": some substring of [msg]
    equals [sig] up to the case of its letters. *)
Definition containsIgnoreCase (msg sig : string) : Prop :=
  exists pre mid post,
    msg = pre ++ mid ++ post /\ toLowerCase mid = toLowerCase sig.

(** The text the classifier looks at: the message, or nothing. *)
Definition messageText (err : Api.JsError) : string :=
  match Api.message err with Some m => m | None => "" end.

(** "the error's message matches one of the configured signatures". *)
Definition hasSignature (err : Api.JsError) : Prop :=
  exists sig, In sig (Api.retryableErrors Api.RETRY_CONFIG) /\
              containsIgnoreCase (messageText err) sig.

(** "an HTTP status is present and is one of 502, 503, 504, 0". *)
Definition hasTransientStatus (response : option Api.Response) : Prop :=
  exists r, response = Some r /\
            (Api.status r = 502 \/ Api.status r = 503 \/
             Api.status r = 504 \/ Api.status r = 0)%Z.

(** "a 4xx client error". *)
Definition clientError (r : Api.Response) : Prop :=
  (400 <= Api.status r <= 499)%Z.

(** The back-off schedule of section 4.2, for retry [k >= 1]. *)
Definition backoff (k : nat) : Z :=
  Z.min (1500 * 2 ^ (Z.of_nat k - 1)) 15000.
End Spec.

(** ** More of lib/api, useGolfSessions, useSessionResponse and SessionCard *)

Module Trace.
(** The trace of a request that made [n] attempts. *)
Definition schedule (n : nat) : list Api.Event :=
  fold_left Api.extend (seq 0 n) [].
End Trace.

Module Tag.
Record t := mk { id : string; name : string; color : option string }.
End Tag.

Module SessionTag.
Record t := mk {
  id : string;
  sessionId : string;
  tagId : string;
  createdAt : string;
  tag : Tag.t
}.
End SessionTag.

Module GolfSession.
Record t := mk {
  id : string;
  title : string;
  date : string;
  description : option string;
  createdBy : UserRef.t;
  responses : list Response.t;
  sessionTags : option (list SessionTag.t)
}.
End GolfSession.

(** A user as [filterUsersBySessionTags] receives it; a user tag is given
    by its [tagId]. *)
Module User.
Record t := mk {
  id : string;
  name : string;
  nickname : string;
  userTags : option (list string)
}.
End User.

(** The [{ id, name, nickname }] objects a filtered user list is made of. *)
Module UserCard.
Record t := mk { id : string; name : string; nickname : string }.
End UserCard.

Module GolfUtilsRest.

Record Counts := mkCounts {
  inCount : nat;
  outCount : nat;
  undecidedCount : nat;
  total : nat
}.

Definition getResponseCounts (responses : list Response.t) : Counts :=
  let inCount :=
    List.length (List.filter (fun r => statusEqb (Response.status r) IN) responses) in
  let outCount :=
    List.length (List.filter (fun r => statusEqb (Response.status r) OUT) responses) in
  let undecidedCount :=
    List.length (List.filter (fun r => statusEqb (Response.status r) UNDECIDED)
                             responses) in
  mkCounts inCount outCount undecidedCount (List.length responses).

Definition getGroupingText (inCount : nat) : string :=
  if (inCount =? 8)%nat then "2 foursomes - Perfect!"
  else if (inCount =? 6)%nat then "2 threesomes"
  else if (inCount =? 4)%nat then "1 foursome"
  else if (inCount =? 0)%nat then "No players yet"
  else JsString.ofZ (Z.of_nat inCount) ++ " players - need to organize groups".

Definition card (user : User.t) : UserCard.t :=
  UserCard.mk (User.id user) (User.name user) (User.nickname user).

(** [sessionTagIds.includes(tagId)]. *)
Definition includesId (ids : list string) (tagId : string) : bool :=
  existsb (fun i => String.eqb i tagId) ids.

Definition filterUsersBySessionTags (allUsers : list User.t)
           (session : GolfSession.t) : list UserCard.t :=
  match GolfSession.sessionTags session with
  | None | Some [] => map card allUsers
  | Some sessionTags =>
      let sessionTagIds := map (fun st => Tag.id (SessionTag.tag st)) sessionTags in
      let filteredUsers :=
        List.filter
          (fun user =>
             match User.userTags user with
             | None | Some [] => false
             | Some userTags => existsb (includesId sessionTagIds) userTags
             end)
          allUsers in
      map card filteredUsers
  end.

Section Dates.
(** [new Date(s).getTime()], [None] for an invalid date, and the time of
    [new Date()]. *)
Variable parse : string -> option Z.
Variable now : Z.

(** [sessionDateTime > now]; a comparison with an invalid date is false. *)
Definition isAfterNow (session : GolfSession.t) : bool :=
  match parse (GolfSession.date session) with
  | Some t => (now <? t)%Z
  | None => false
  end.

(** The [for] loop, from index [i] on. *)
Fixpoint firstAfterNow (sessions : list GolfSession.t) (i : nat) : option nat :=
  match sessions with
  | [] => None
  | s :: rest => if isAfterNow s then Some i else firstAfterNow rest (S i)
  end.

(** The GraphQL version of [findUpcomingSessionIndex]. *)
Definition findUpcomingSessionIndex (sessions : list GolfSession.t) : nat :=
  if (List.length sessions =? 0)%nat then 0%nat
  else match firstAfterNow sessions 0 with
       | Some i => i
       | None => 0%nat
       end.
End Dates.

End GolfUtilsRest.

(** The REST version of lib/api compares days. *)
Module RestGolfUtils.
Section Days.
(** The local midnight of the day of [new Date(s)], [None] for an invalid
    date, and the local midnight of today. *)
Variable dayOf : string -> option Z.
Variable today : Z.

(** [sessionDay >= today]; a comparison with an invalid date is false. *)
Definition isTodayOrLater (session : GolfSession.t) : bool :=
  match dayOf (GolfSession.date session) with
  | Some day => (today <=? day)%Z
  | None => false
  end.

Fixpoint firstTodayOrLater (sessions : list GolfSession.t) (i : nat) : option nat :=
  match sessions with
  | [] => None
  | s :: rest => if isTodayOrLater s then Some i else firstTodayOrLater rest (S i)
  end.

Definition findUpcomingSessionIndex (sessions : list GolfSession.t) : nat :=
  match firstTodayOrLater sessions 0 with
  | Some i => i
  | None =>
      if (0 <? List.length sessions)%nat
      then (List.length sessions - 1)%nat else 0%nat
  end.
End Days.
End RestGolfUtils.

(** ** lib/api (GraphQL version): the response mutations *)

Module SessionApi.
Import JsString.

(** The argument of [submitResponse] as its type declares it. *)
Module ResponseData.
Record t := mk {
  userId : string;
  status : ResponseStatus;
  note : option string;
  transport : option TransportType
}.
End ResponseData.

(** The [input] of the SUBMIT_RESPONSE mutation; [None] is [null]. *)
Module Input.
Record t := mk {
  userId : string;
  golfSessionId : string;
  status : ResponseStatus;
  note : option string;
  transport : option TransportType
}.
End Input.

(** What the mutation selects from the stored response. *)
Module Stored.
Record t := mk {
  id : string;
  status : ResponseStatus;
  note : option string;
  transport : option TransportType;
  userId : string;
  golfSessionId : string
}.
End Stored.

Definition submitInput (sessionId : string) (responseData : ResponseData.t)
  : Input.t :=
  Input.mk (ResponseData.userId responseData) sessionId
           (ResponseData.status responseData)
           (match ResponseData.note responseData with
            | Some n => if truthy n then Some n else None
            | None => None
            end)
           (ResponseData.transport responseData).

(** [user ? { id: user.id, nickname: user.nickname }
          : { id: userId, nickname: 'Unknown' }]
    for [user = users.find(u => u.id === userId)]. *)
Definition userOf (users : list User.t) (userId : string) : UserRef.t :=
  match List.find (fun u => String.eqb (User.id u) userId) users with
  | Some user => UserRef.mk (User.id user) (User.nickname user)
  | None => UserRef.mk userId "Unknown"
  end.

(** [submitResponse]: [mutation] is what the SUBMIT_RESPONSE request did,
    [getAll] what the [userApi.getAll()] that follows it did. *)
Definition submitResponse (responseData : ResponseData.t)
           (mutation : Caught + Stored.t) (getAll : Caught + list User.t)
  : Caught + Response.t :=
  match mutation with
  | inl err => inl err
  | inr stored =>
      match getAll with
      | inl err => inl err
      | inr users =>
          inr (Response.mk (Stored.id stored) (Stored.status stored)
                           (Stored.note stored) (Stored.transport stored)
                           (userOf users (ResponseData.userId responseData)))
      end
  end.

(** [deleteResponse]: the request, then [userApi.getAll()], then the
    made-up [deletedResponse]. *)
Definition deleteResponse (sessionId userId : string)
           (mutation : Caught + unit) (getAll : Caught + list User.t)
  : Caught + Response.t :=
  match mutation with
  | inl err => inl err
  | inr _ =>
      match getAll with
      | inl err => inl err
      | inr users =>
          inr (Response.mk (userId ++ "-" ++ sessionId) UNDECIDED None None
                           (userOf users userId))
      end
  end.

End SessionApi.

(** ** hooks/useGolfSessions on its list of sessions *)

Module SessionsState.
Import JsString.

Record State := mkState {
  sessions : list GolfSession.t;
  error : option string
}.

Definition withResponses (session : GolfSession.t) (responses : list Response.t)
  : GolfSession.t :=
  GolfSession.mk (GolfSession.id session) (GolfSession.title session)
                 (GolfSession.date session) (GolfSession.description session)
                 (GolfSession.createdBy session) responses
                 (GolfSession.sessionTags session).

Definition submitResponse (st : State) (sessionId : string)
           (responseData : SessionApi.ResponseData.t)
           (api : Caught + Response.t) : State * Result.t :=
  match api with
  | inr response =>
      (mkState
         (map (fun session =>
                 if String.eqb (GolfSession.id session) sessionId then
                   let filteredResponses :=
                     List.filter
                       (fun r => negb (String.eqb (UserRef.id (Response.user r))
                                                  (SessionApi.ResponseData.userId
                                                     responseData)))
                       (GolfSession.responses session) in
                   withResponses session (filteredResponses ++ [response])%list
                 else session)
              (sessions st))
         (error st),
       Result.mk true None)
  | inl err =>
      let message := messageOf err "Failed to submit response" in
      (mkState (sessions st) (Some message), Result.mk false (Some message))
  end.

Definition deleteResponse (st : State) (sessionId userId : string)
           (api : Caught + Response.t) : State * Result.t :=
  match api with
  | inr _ =>
      (mkState
         (map (fun session =>
                 if String.eqb (GolfSession.id session) sessionId then
                   withResponses session
                     (List.filter
                        (fun r => negb (String.eqb (UserRef.id (Response.user r))
                                                   userId))
                        (GolfSession.responses session))
                 else session)
              (sessions st))
         (error st),
       Result.mk true None)
  | inl err =>
      let message := messageOf err "Failed to delete response" in
      (mkState (sessions st) (Some message), Result.mk false (Some message))
  end.

Definition createSession (st : State) (api : Caught + GolfSession.t)
  : State * Result.t :=
  match api with
  | inr newSession =>
      (mkState (sessions st ++ [newSession])%list (error st), Result.mk true None)
  | inl err =>
      let message := messageOf err "Failed to create session" in
      (mkState (sessions st) (Some message), Result.mk false (Some message))
  end.

Definition updateSession (st : State) (id : string) (api : Caught + GolfSession.t)
  : State * Result.t :=
  match api with
  | inr updatedSession =>
      (mkState
         (map (fun session =>
                 if String.eqb (GolfSession.id session) id
                 then updatedSession else session)
              (sessions st))
         (error st),
       Result.mk true None)
  | inl err =>
      let message := messageOf err "Failed to update session" in
      (mkState (sessions st) (Some message), Result.mk false (Some message))
  end.

Definition deleteSession (st : State) (id : string) (api : Caught + unit)
  : State * Result.t :=
  match api with
  | inr _ =>
      (mkState
         (List.filter (fun session => negb (String.eqb (GolfSession.id session) id))
                      (sessions st))
         (error st),
       Result.mk true None)
  | inl err =>
      let message := messageOf err "Failed to delete session" in
      (mkState (sessions st) (Some message), Result.mk false (Some message))
  end.

Definition getSessionById (st : State) (id : string) : option GolfSession.t :=
  List.find (fun session => String.eqb (GolfSession.id session) id) (sessions st).

Definition getSessionStats (st : State) (sessionId : string)
  : option GolfUtilsRest.Counts :=
  match getSessionById st sessionId with
  | None => None
  | Some session =>
      Some (GolfUtilsRest.getResponseCounts (GolfSession.responses session))
  end.

End SessionsState.

(** ** hooks/useSessionResponse: notes being edited and statistics *)

Module HookRest.
Import JsString Hook.





(** [session.responses.some(r => r.user.id === userId)]. *)
Definition hasServerResponse (responses : list Response.t) (userId : string)
  : bool :=
  existsb (fun r => String.eqb (UserRef.id (Response.user r)) userId) responses.

(** The list [getResponseStats] counts; [entries] is the overlay as
    [Object.keys] enumerates it. *)
Definition responsesWithOptimistic (responses : list Response.t)
           (overlay : gmap string Entry.t) (entries : list (string * Entry.t))
  : list Response.t :=
  (map (fun response =>
          match overlay !! UserRef.id (Response.user response) with
          | Some entry =>
              Response.mk (Response.id response) (Entry.status entry)
                          (Some (Entry.note entry)) (Entry.transport entry)
                          (Response.user response)
          | None => response
          end)
       responses
   ++ map (fun '(userId, entry) =>
             Response.mk ("optimistic-" ++ userId) (Entry.status entry)
                         (Some (Entry.note entry)) None (UserRef.mk userId ""))
          (List.filter (fun '(userId, _) => negb (hasServerResponse responses userId))
                       entries))%list.

Definition getResponseStats (responses : list Response.t) (st : State)
  : GolfUtilsRest.Counts :=
  GolfUtilsRest.getResponseCounts
    (responsesWithOptimistic responses (optimisticResponses st)
                             (map_to_list (optimisticResponses st))).

Definition getGroupingText (responses : list Response.t) (st : State) : string :=
  GolfUtilsRest.getGroupingText
    (GolfUtilsRest.inCount (getResponseStats responses st)).

(** The payload of a handler as [submitResponse] receives it. *)
Definition responseDataOf (payload : Payload.t) : SessionApi.ResponseData.t :=
  SessionApi.ResponseData.mk (Payload.userId payload) (Payload.status payload)
                             (Some (Payload.note payload))
                             (Some (Payload.transport payload)).



End HookRest.

(** ** components/SessionCard: saving a comment *)

Module SessionCard.
Import JsString Hook.

(** How [handleSaveComment] goes on after its checks. *)
Inductive SaveComment :=
| PastSession
| StatusRequired
| Submits (responseData : SessionApi.ResponseData.t).

Definition handleSaveComment (responses : list Response.t) (st : State)
           (isPastSession : bool) (currentUserId comment : string) : SaveComment :=
  if isPastSession then PastSession
  else
    match getUserResponse responses st currentUserId with
    | None => StatusRequired
    | Some currentUserResponse =>
        Submits (SessionApi.ResponseData.mk
                   currentUserId
                   (Response.status currentUserResponse)
                   (if truthy (trim comment) then Some (trim comment) else None)
                   None)
    end.

End SessionCard.

(** ** Words for the properties of the utilities *)

Module Words.
(** The ids of the tags of a session, none when it has no tags. *)
Definition tagIdsOf (session : GolfSession.t) : list string :=
  match GolfSession.sessionTags session with
  | Some sessionTags => map (fun st => Tag.id (SessionTag.tag st)) sessionTags
  | None => []
  end.

(** The tag ids of a user, none when the user has no tags. *)
Definition userTagsOf (user : User.t) : list string :=
  match User.userTags user with
  | Some userTags => userTags
  | None => []
  end.

(** The response belongs to the user. *)
Definition ofUser (userId : string) (r : Response.t) : bool :=
  String.eqb (UserRef.id (Response.user r)) userId.

(** The responses of the user among [responses]. *)
Definition recordsOf (userId : string) (responses : list Response.t)
  : list Response.t :=
  List.filter (ofUser userId) responses.

(** The user belongs to one of the tags of the session. *)
Definition sharesTag (user : User.t) (session : GolfSession.t) : Prop :=
  exists tagId, In tagId (userTagsOf user) /\ In tagId (tagIdsOf session).
End Words.

(** ** More concrete inputs *)

Module MoreExamples.
(** A service that is unavailable. *)
Definition unavailable : Api.Response :=
  {| Api.status := 503; Api.ok := false;
     Api.json := inl {| Api.error := Some "Maintenance"; Api.payload := "" |} |}.

(** An ok answer. *)
Definition fine : Api.Response :=
  {| Api.status := 200; Api.ok := true;
     Api.json := inl {| Api.error := None; Api.payload := "[]" |} |}.

(** A thrown value without a message. *)
Definition silent : Api.JsError := {| Api.message := None |}.

(** Unavailable once, then the connection breaks without a message. *)
Definition unavailableThenSilent : nat -> Api.FetchResult :=
  fun attempt => match attempt with
                 | O => inr unavailable
                 | _ => inl silent
                 end.

(** Bob says he is out. *)
Definition bobOut : SessionApi.ResponseData.t :=
  SessionApi.ResponseData.mk "u2" OUT None None.

(** What the backend stored for it. *)
Definition bobStored : SessionApi.Stored.t :=
  SessionApi.Stored.mk "r2" OUT None None "u2" "s1".

Definition bob : User.t := User.mk "u2" "Bob" "Bo" None.

(** A session in which Alice and Bob have answered. *)
Definition saturday : GolfSession.t :=
  GolfSession.mk "s1" "Saturday" "2026-05-02T08:00:00Z" None Examples.alice
                 [Examples.ridingIn;
                  Response.mk "r0" IN None None (UserRef.mk "u2" "Bo")]
                 None.

(** Two time-outs, then an answer. *)
Definition twoTimeouts : nat -> Api.FetchResult :=
  fun attempt => match attempt with
                 | 0%nat | 1%nat => inl (Api.mkError "Request timeout")
                 | _ => inr fine
                 end.
End MoreExamples.

(** * Facts about the string primitives *)

Section StringFacts.
Import JsString.

Lemma append_nil (s : string) : "" ++ s = s.
Proof. reflexivity. Qed.

Lemma append_cons (c : ascii) (a b : string) :
  String c a ++ b = String c (a ++ b).
Proof. reflexivity. Qed.

Lemma append_assoc (a b c : string) : (a ++ b) ++ c = a ++ (b ++ c).
Proof.
  induction a as [|x a IH]; [reflexivity|].
  now rewrite !append_cons, IH.
Qed.

Lemma append_empty_r (a : string) : a ++ "" = a.
Proof.
  induction a as [|x a IH]; [reflexivity|]. now rewrite append_cons, IH.
Qed.

Lemma toLowerCase_app (a b : string) :
  toLowerCase (a ++ b) = toLowerCase a ++ toLowerCase b.
Proof.
  induction a as [|x a IH]; [reflexivity|].
  rewrite append_cons. simpl. now rewrite append_cons, IH.
Qed.

(** A split of the lowered string comes from a split of the string. *)
Lemma toLowerCase_split (a b s : string) :
  toLowerCase s = a ++ b ->
  exists s1 s2, s = s1 ++ s2 /\ toLowerCase s1 = a /\ toLowerCase s2 = b.
Proof.
  revert s. induction a as [|x a IH]; intros s H.
  - exists "", s. auto.
  - rewrite append_cons in H.
    destruct s as [|c s]; simpl in H; [discriminate|].
    injection H as Hc Hs. destruct (IH s Hs) as (s1 & s2 & -> & H1 & H2).
    exists (String c s1), s2. rewrite append_cons. simpl. subst. auto.
Qed.

Lemma startsWith_iff (s p : string) :
  startsWith s p = true <-> exists post, s = p ++ post.
Proof.
  revert s. induction p as [|x p IH]; intros s; simpl.
  - split; [intros _; now exists s | reflexivity].
  - destruct s as [|c s].
    + split; [discriminate | intros [post H]; discriminate].
    + rewrite andb_true_iff, Ascii.eqb_eq, IH. split.
      * intros [-> [post ->]]. now exists post.
      * intros [post H]. rewrite append_cons in H. injection H as -> ->.
        split; [reflexivity | now exists post].
Qed.

(** [includes] is the substring relation. *)
Lemma includes_iff (s sub : string) :
  includes s sub = true <-> exists pre post, s = pre ++ sub ++ post.
Proof.
  induction s as [|c s IH]; simpl.
  - rewrite orb_false_r, startsWith_iff. split.
    + intros [post H]. now exists "", post.
    + intros (pre & post & H). destruct pre as [|x pre].
      * now exists post.
      * rewrite append_cons in H. discriminate.
  - rewrite orb_true_iff, startsWith_iff, IH. split.
    + intros [[post H] | (pre & post & H)].
      * now exists "", post.
      * exists (String c pre), post. now rewrite append_cons, H.
    + intros (pre & post & H). destruct pre as [|x pre].
      * left. now exists post.
      * right. rewrite append_cons in H. injection H as _ H.
        now exists pre, post.
Qed.

(** The executable test refines the specification's wording. *)
Lemma includes_lower_iff (msg sig : string) :
  includes (toLowerCase msg) (toLowerCase sig) = true
  <-> Spec.containsIgnoreCase msg sig.
Proof.
  rewrite includes_iff. unfold Spec.containsIgnoreCase. split.
  - intros (pre & post & H).
    apply toLowerCase_split in H as (s1 & r & -> & H1 & H).
    apply toLowerCase_split in H as (s2 & s3 & -> & H2 & H3).
    now exists s1, s2, s3.
  - intros (pre & mid & post & -> & H).
    exists (toLowerCase pre), (toLowerCase post).
    now rewrite !toLowerCase_app, H.
Qed.

Lemma trimStart_split (s : string) :
  exists l, s = l ++ trimStart s /\ allChars isWhiteSpace l = true.
Proof.
  induction s as [|c s (l & Hl & Hws)]; simpl.
  - now exists "".
  - destruct (isWhiteSpace c) eqn:E.
    + exists (String c l). rewrite append_cons, <- Hl. simpl. now rewrite E.
    + now exists "".
Qed.

Lemma trimStart_first (s : string) :
  match firstChar (trimStart s) with
  | Some c => isWhiteSpace c = false
  | None => True
  end.
Proof.
  induction s as [|c s IH]; simpl; [exact I|].
  destruct (isWhiteSpace c) eqn:E; [exact IH | exact E].
Qed.

Lemma trimEnd_split (s : string) :
  exists r, s = trimEnd s ++ r /\ allChars isWhiteSpace r = true.
Proof.
  induction s as [|c s (r & Hr & Hws)]; simpl.
  - now exists "".
  - destruct (trimEnd s) as [|d t] eqn:E.
    + destruct (isWhiteSpace c) eqn:Ec.
      * exists (String c r). rewrite append_nil in *. subst s.
        simpl. now rewrite Ec.
      * exists r. rewrite append_nil in Hr. subst s. auto.
    + exists r. rewrite append_cons, <- Hr. auto.
Qed.

Lemma trimEnd_last (s : string) :
  match lastChar (trimEnd s) with
  | Some c => isWhiteSpace c = false
  | None => True
  end.
Proof.
  induction s as [|c s IH]; simpl; [exact I|].
  destruct (trimEnd s) as [|d t] eqn:E.
  - destruct (isWhiteSpace c) eqn:Ec; simpl; auto.
  - exact IH.
Qed.

(** [trimEnd] keeps a first character that is not white space. *)
Lemma trimEnd_first (s : string) :
  match firstChar s with
  | Some c => isWhiteSpace c = false -> firstChar (trimEnd s) = Some c
  | None => trimEnd s = ""
  end.
Proof.
  destruct s as [|c s]; simpl; [reflexivity|]. intros Hc.
  destruct (trimEnd s); [now rewrite Hc | reflexivity].
Qed.

(** [trim] removes white space, only white space, and all of it, at
    both ends. *)
Lemma trim_spec (s : string) :
  (exists l r, s = l ++ trim s ++ r /\
               allChars isWhiteSpace l = true /\
               allChars isWhiteSpace r = true) /\
  noSurroundingWhiteSpace (trim s) = true.
Proof.
  unfold trim. split.
  - destruct (trimStart_split s) as (l & Hl & Hlws).
    destruct (trimEnd_split (trimStart s)) as (r & Hr & Hrws).
    exists l, r. now rewrite <- Hr.
  - unfold noSurroundingWhiteSpace.
    pose proof (trimStart_first s) as H1.
    pose proof (trimEnd_first (trimStart s)) as H2.
    pose proof (trimEnd_last (trimStart s)) as H3.
    destruct (firstChar (trimStart s)) as [c|].
    + rewrite (H2 H1). destruct (lastChar (trimEnd (trimStart s))); [|reflexivity].
      now rewrite H1, H3.
    + now rewrite H2.
Qed.
End StringFacts.

(** * The retry engine *)

Section ApiFacts.
Import JsString Api.

Lemma errorMessage_lower (err : JsError) :
  orElse (option_map toLowerCase (message err)) ""
  = toLowerCase (Spec.messageText err).
Proof.
  unfold Spec.messageText. destruct (message err) as [m|]; simpl; [|reflexivity].
  now destruct (toLowerCase m).
Qed.

Lemma hasRetryableMessage_iff (err : JsError) :
  existsb (fun retryableError =>
             includes (orElse (option_map toLowerCase (message err)) "")
                      (toLowerCase retryableError))
          (retryableErrors RETRY_CONFIG) = true
  <-> Spec.hasSignature err.
Proof.
  rewrite existsb_exists, errorMessage_lower. unfold Spec.hasSignature.
  split; intros (sig & Hin & H); exists sig; split; auto;
    now apply includes_lower_iff.
Qed.

Lemma hasRetryableStatus_iff (response : option Response) :
  match response with
  | Some r =>
      (status r =? 502)%Z || (status r =? 503)%Z
      || (status r =? 504)%Z || (status r =? 0)%Z
  | None => false
  end = true
  <-> Spec.hasTransientStatus response.
Proof.
  unfold Spec.hasTransientStatus. destruct response as [r|].
  - rewrite !orb_true_iff, !Z.eqb_eq. split.
    + intros H. exists r. intuition.
    + intros (r' & [= <-] & H). intuition.
  - split; [discriminate | intros (r & [=] & _)].
Qed.

Lemma isRetryableError_iff (err : JsError) (response : option Response) :
  isRetryableError err response = true
  <-> Spec.hasSignature err \/ Spec.hasTransientStatus response.
Proof.
  unfold isRetryableError.
  now rewrite orb_false_r, orb_true_iff,
    hasRetryableMessage_iff, hasRetryableStatus_iff.
Qed.

(** A failure that is retryable without a response stays so whatever
    response the loop still remembers. *)
Lemma isRetryableError_stale (err : JsError) (lastResponse : option Response) :
  isRetryableError err None = true ->
  isRetryableError err lastResponse = true.
Proof.
  rewrite !isRetryableError_iff. intros [H | (r & [=] & _)]. now left.
Qed.

(** One iteration whose attempt fails with a transient error: the loop
    goes on, unless this was the last attempt. *)
Lemma retryLoop_transient (fetch : nat -> FetchResult) (remaining attempt : nat)
      (lastError : option JsError) (lastResponse : option Response)
      (trace : list Event) :
  transientFailure (fetch attempt) ->
  exists err lastResponse',
    failureOf (fetch attempt) = Some err /\
    retryLoop fetch (S remaining) attempt lastError lastResponse trace
    = if (attempt =? maxRetries RETRY_CONFIG)%nat
      then (Thrown (Some err), extend trace attempt)
      else retryLoop fetch remaining (S attempt) (Some err) lastResponse'
                     (extend trace attempt).
Proof.
  intros (err & Hfail & Hretry). unfold extend.
  cbn [retryLoop]. destruct (fetch attempt) as [e | response]; simpl in *.
  - injection Hfail as ->. exists err, lastResponse. split; [reflexivity|].
    rewrite (isRetryableError_stale _ lastResponse Hretry). reflexivity.
  - destruct (ok response); simpl in *.
    + destruct (json response) as [data | e]; [discriminate|].
      injection Hfail as ->. exists err, (Some response).
      split; [reflexivity|]. now rewrite Hretry.
    + injection Hfail as <-. exists (httpError response), (Some response).
      split; [reflexivity|]. rewrite Hretry. cbn.
      destruct (attempt =? 4)%nat; reflexivity.
Qed.

(** One iteration whose attempt fails with an error that is not
    retryable: the loop stops at once. *)
Lemma retryLoop_permanent (fetch : nat -> FetchResult) (remaining attempt : nat)
      (lastError : option JsError) (lastResponse : option Response)
      (trace : list Event) (response : Response) :
  fetch attempt = inr response ->
  ok response = false ->
  isRetryableError (httpError response) (Some response) = false ->
  retryLoop fetch (S remaining) attempt lastError lastResponse trace
  = (Thrown (Some (httpError response)), extend trace attempt).
Proof.
  intros Hf Hok Hno. unfold extend. cbn [retryLoop].
  rewrite Hf, Hok. simpl. now rewrite Hno.
Qed.

Lemma noSignature_by_evaluation (err : JsError) :
  isRetryableError err None = false -> ~ Spec.hasSignature err.
Proof.
  intros Hev Hsig.
  assert (isRetryableError err None = true) as Ht
      by (apply isRetryableError_iff; now left).
  congruence.
Qed.

(** C2. An operation that fails with a transient error on every attempt
    is tried exactly 5 times; the pause before retry k is
    min(1500 * 2^(k-1), 15000) ms, that is 1500, 3000, 6000 and 12000 ms,
    22500 ms in all; then the failure of the last attempt is thrown. *)
Theorem apiRequest_retry_bound (fetch : nat -> FetchResult) :
  (forall k, (k <= maxRetries RETRY_CONFIG)%nat -> transientFailure (fetch k)) ->
  exists err,
    failureOf (fetch 4%nat) = Some err /\
    apiRequest fetch
    = (Thrown (Some err),
       [Fetch 0; Sleep 1500; Fetch 1; Sleep 3000; Fetch 2;
        Sleep 6000; Fetch 3; Sleep 12000; Fetch 4]) /\
    attempts (snd (apiRequest fetch)) = 5%nat /\
    delays (snd (apiRequest fetch)) = map Spec.backoff [1; 2; 3; 4]%nat /\
    delays (snd (apiRequest fetch)) = [1500; 3000; 6000; 12000]%Z /\
    totalDelay (snd (apiRequest fetch)) = 22500%Z.
Proof.
  intros Hall. unfold apiRequest.
  change (maxRetries RETRY_CONFIG) with 4%nat in *.
  destruct (retryLoop_transient fetch 4 0 None None [] (Hall 0%nat ltac:(lia)))
    as (e0 & r0 & _ & ->).
  destruct (retryLoop_transient fetch 3 1 (Some e0) r0 (extend [] 0)
              (Hall 1%nat ltac:(lia))) as (e1 & r1 & _ & ->).
  destruct (retryLoop_transient fetch 2 2 (Some e1) r1 (extend (extend [] 0) 1)
              (Hall 2%nat ltac:(lia))) as (e2 & r2 & _ & ->).
  destruct (retryLoop_transient fetch 1 3 (Some e2) r2
              (extend (extend (extend [] 0) 1) 2)
              (Hall 3%nat ltac:(lia))) as (e3 & r3 & _ & ->).
  destruct (retryLoop_transient fetch 0 4 (Some e3) r3
              (extend (extend (extend (extend [] 0) 1) 2) 3)
              (Hall 4%nat ltac:(lia))) as (e4 & r4 & Hlast & ->).
  exists e4. split; [exact Hlast|]. repeat split; reflexivity.
Qed.

Lemma apiRequest_retry_bound_witness :
  exists err,
    failureOf (Examples.networkDown 4%nat) = Some err /\
    apiRequest Examples.networkDown
    = (Thrown (Some err),
       [Fetch 0; Sleep 1500; Fetch 1; Sleep 3000; Fetch 2;
        Sleep 6000; Fetch 3; Sleep 12000; Fetch 4]) /\
    attempts (snd (apiRequest Examples.networkDown)) = 5%nat /\
    delays (snd (apiRequest Examples.networkDown))
    = map Spec.backoff [1; 2; 3; 4]%nat /\
    delays (snd (apiRequest Examples.networkDown))
    = [1500; 3000; 6000; 12000]%Z /\
    totalDelay (snd (apiRequest Examples.networkDown)) = 22500%Z.
Proof.
  apply (apiRequest_retry_bound Examples.networkDown).
  intros k _. exists (mkError "Network request failed").
  split; reflexivity.
Defined.

(** C3, as the code has it. The classifier answers true exactly when
    the message contains a configured signature, case-insensitively, or
    a response is present with status 502, 503, 504 or 0. It answers
    false for a 4xx response whose message contains no signature, and a
    404 failure of that kind is attempted exactly once. *)
Theorem isRetryableError_classifier :
  (forall err response,
      isRetryableError err response = true
      <-> Spec.hasSignature err \/ Spec.hasTransientStatus response) /\
  (forall err r,
      Spec.clientError r -> ~ Spec.hasSignature err ->
      isRetryableError err (Some r) = false) /\
  (forall fetch r,
      fetch 0%nat = inr r -> ok r = false -> status r = 404%Z ->
      ~ Spec.hasSignature (httpError r) ->
      apiRequest fetch = (Thrown (Some (httpError r)), [Fetch 0]) /\
      attempts (snd (apiRequest fetch)) = 1%nat).
Proof.
  assert (forall err r, (400 <= status r <= 499)%Z -> ~ Spec.hasSignature err ->
                        isRetryableError err (Some r) = false) as H4xx.
  { intros err r Hr Hno.
    destruct (isRetryableError err (Some r)) eqn:E; [|reflexivity].
    apply isRetryableError_iff in E as [Hs | (r' & [= <-] & Hst)];
      [contradiction | lia]. }
  split; [exact isRetryableError_iff|]. split; [exact H4xx|].
  intros fetch r Hf Hok Hst Hno. unfold apiRequest.
  rewrite (retryLoop_permanent fetch _ 0 None None [] r Hf Hok).
  - split; reflexivity.
  - apply H4xx; [lia | exact Hno].
Qed.

Lemma isRetryableError_classifier_witness :
  isRetryableError (httpError Examples.notFound) (Some Examples.notFound) = false /\
  apiRequest (fun _ => inr Examples.notFound)
  = (Thrown (Some (mkError "HTTP 404")), [Fetch 0]).
Proof.
  destruct isRetryableError_classifier as (_ & H4xx & H404).
  assert (~ Spec.hasSignature (httpError Examples.notFound)) as Hno
      by (apply noSignature_by_evaluation; reflexivity).
  split.
  - apply H4xx; [unfold Spec.clientError; simpl; lia | exact Hno].
  - apply (H404 (fun _ => inr Examples.notFound) Examples.notFound);
      [reflexivity | reflexivity | reflexivity | exact Hno].
Defined.

(** C3 as stated fails: a 4xx answer is classified retryable when its
    message carries a signature, and is then attempted five times. *)
Lemma isRetryableError_client_error_retried :
  Spec.clientError Examples.requestTimeout /\
  isRetryableError (httpError Examples.requestTimeout)
                   (Some Examples.requestTimeout) = true /\
  attempts (snd (apiRequest (fun _ => inr Examples.requestTimeout))) = 5%nat /\
  ~ (forall err r, Spec.clientError r -> isRetryableError err (Some r) = false).
Proof.
  assert (Spec.clientError Examples.requestTimeout) as Hc
      by (unfold Spec.clientError; simpl; lia).
  split; [exact Hc|]. split; [reflexivity|]. split; [reflexivity|].
  intros Hall.
  specialize (Hall (httpError Examples.requestTimeout) Examples.requestTimeout Hc).
  discriminate Hall.
Qed.
End ApiFacts.

(** * The hook *)

Section HookFacts.
Import JsString Hook.






Lemma statusEqb_eq (a b : ResponseStatus) : statusEqb a b = true <-> a = b.
Proof. destruct a, b; simpl; split; congruence. Qed.

Lemma lookup_clearEntry (u v : string) (st : State) :
  optimisticResponses (clearEntry u st) !! v
  = if decide (u = v) then None else optimisticResponses st !! v.
Proof. unfold clearEntry, setOptimisticResponses. simpl. apply lookup_delete. Qed.

Lemma lookup_putEntry (u v : string) (entry : Entry.t) (st : State) :
  optimisticResponses (putEntry u entry st) !! v
  = if decide (u = v) then Some entry else optimisticResponses st !! v.
Proof. unfold putEntry, setOptimisticResponses. simpl. apply lookup_insert. Qed.


Lemma lookup_putEntry_eq (u : string) (entry : Entry.t) (st : State) :
  optimisticResponses (putEntry u entry st) !! u = Some entry.
Proof. rewrite lookup_putEntry. now destruct (decide (u = u)). Qed.




(** What a failed toggle-off puts back, for any user: status and note,
    no transport. *)
Lemma failed_toggle_off_restores_status_and_note
      (responses : list Response.t) (st : State) (userId : string)
      (current : Response.t) (result : Result.t) :
  getUserResponse responses st userId = Some current ->
  Result.success result = false ->
  exists st' r,
    handleStatusClick responses st userId (Response.status current)
                      (Resolved result)
    = (st', result, DeleteMutation userId) /\
    optimisticResponses st' !! userId
    = Some (Entry.mk (Response.status current)
                     (orElse (Response.note current) "") None) /\
    getUserResponse responses st' userId = Some r /\
    Response.status r = Response.status current /\
    Response.note r = Some (orElse (Response.note current) "") /\
    Response.transport r = None.
Proof.
  intros Hcur Hfail.
  unfold handleStatusClick, handleStatusClick_start. rewrite Hcur.
  assert (statusEqb (Response.status current) (Response.status current) = true)
    as -> by now apply statusEqb_eq.
  unfold handleStatusClick_settle. rewrite Hfail.
  do 2 eexists. split; [reflexivity|].
  assert (forall entry,
             optimisticResponses
               (setSubmittingResponse None
                  (putEntry userId entry
                     (clearEntry userId
                        (setError None (setSubmittingResponse (Some userId) st)))))
               !! userId = Some entry) as Hentry
      by (intros entry; simpl; apply lookup_insert_eq).
  split; [apply Hentry|].
  unfold getUserResponse. rewrite Hentry. simpl. repeat split.
Qed.

(** C5 fails on the code: Alice is in, riding, with a note; she toggles
    IN off and the delete call returns a failure. The restored overlay
    entry has no transport, so her effective response is not the one
    she had. *)
Theorem toggle_off_failure_loses_transport :
  let before := getUserResponse [Examples.ridingIn] initial "u1" in
  let run := handleStatusClick [Examples.ridingIn] initial "u1" IN
                               (Resolved Examples.deleteFailed) in
  let st' := fst (fst run) in
  before = Some Examples.ridingIn /\
  snd run = DeleteMutation "u1" /\
  optimisticResponses st' !! "u1" = Some (Entry.mk IN "bring cart" None) /\
  getUserResponse [Examples.ridingIn] st' "u1"
  = Some (Response.mk "r1" IN (Some "bring cart") None Examples.alice) /\
  (getUserResponse [Examples.ridingIn] st' "u1" ≫= Response.transport) = None /\
  (before ≫= Response.transport) = Some RIDING.
Proof. vm_compute. repeat split. Qed.

(** After the merge of [useGolfSessions], the echoed response is the
    user's record. *)
Lemma findUserResponse_after_submit
      (responses : list Response.t) (userId : string) (echo : Response.t) :
  UserRef.id (Response.user echo) = userId ->
  GolfUtils.findUserResponse
    (fst (Sessions.submitResponse responses userId (inr echo))) userId
  = Some echo.
Proof.
  intros Hecho. unfold GolfUtils.findUserResponse. simpl.
  induction responses as [|r rs IH]; simpl.
  - now rewrite (proj2 (String.eqb_eq _ _) Hecho).
  - destruct (String.eqb (UserRef.id (Response.user r)) userId) eqn:E; simpl.
    + exact IH.
    + now rewrite E.
Qed.

Lemma handleStatusClick_start_same
      (responses : list Response.t) (st : State) (userId : string)
      (status : ResponseStatus) :
  effectiveStatus responses st userId = Some status ->
  handleStatusClick_start responses st userId status
  = (clearEntry userId (setError None (setSubmittingResponse (Some userId) st)),
     DeleteMutation userId,
     ToggleOff (getUserResponse responses st userId)).
Proof.
  unfold effectiveStatus, handleStatusClick_start.
  destruct (getUserResponse responses st userId) as [c|]; simpl; [|discriminate].
  intros [= ->]. now rewrite (proj2 (statusEqb_eq _ _) eq_refl).
Qed.

Lemma handleStatusClick_start_other
      (responses : list Response.t) (st : State) (userId : string)
      (status : ResponseStatus) :
  effectiveStatus responses st userId <> Some status ->
  let current := getUserResponse responses st userId in
  handleStatusClick_start responses st userId status
  = (putEntry userId (Entry.mk status (noteOr current) (Some (transportOr current)))
              (setError None (setSubmittingResponse (Some userId) st)),
     SubmitMutation (Payload.mk userId status (noteOr current) (transportOr current)),
     SetStatus).
Proof.
  unfold effectiveStatus, handleStatusClick_start.
  destruct (getUserResponse responses st userId) as [c|]; simpl; [|reflexivity].
  intros Hne. destruct (statusEqb (Response.status c) status) eqn:E; [|reflexivity].
  apply statusEqb_eq in E. congruence.
Qed.



(** C7. A note change submits the user's effective status and transport
    as they are (UNDECIDED and WALKING when there is none) and the note
    without its surrounding white space. *)
Theorem handleNoteChange_payload
        (responses : list Response.t) (st : State) (userId note : string) :
  let current := getUserResponse responses st userId in
  (forall answer,
      snd (handleNoteChange responses st userId note answer)
      = SubmitMutation (Payload.mk userId (statusOr current) (trim note)
                                   (transportOr current))) /\
  (forall c, current = Some c ->
     statusOr current = Response.status c /\
     (forall t, Response.transport c = Some t -> transportOr current = t) /\
     (Response.transport c = None -> transportOr current = WALKING)) /\
  (current = None ->
     statusOr current = UNDECIDED /\ transportOr current = WALKING) /\
  (exists l r, note = l ++ trim note ++ r /\
               allChars isWhiteSpace l = true /\
               allChars isWhiteSpace r = true) /\
  noSurroundingWhiteSpace (trim note) = true /\
  snd (handleNoteChange [Examples.ridingIn] initial "u1" "running late"
                        (Resolved Examples.succeeded))
  = SubmitMutation (Payload.mk "u1" IN "running late" RIDING).
Proof.
  intros current. split; [|split; [|split; [|split; [|split]]]].
  - intros answer. unfold handleNoteChange, handleNoteChange_start.
    fold current. destruct (handleNoteChange_settle _ _ _). reflexivity.
  - intros c ->. simpl. split; [reflexivity|]. unfold transportOr. simpl.
    split; [now intros t -> | now intros ->].
  - now intros ->.
  - apply trim_spec.
  - apply trim_spec.
  - reflexivity.
Qed.

Lemma handleNoteChange_payload_witness :
  statusOr (getUserResponse [Examples.ridingIn] initial "u1") = IN /\
  transportOr (getUserResponse [Examples.ridingIn] initial "u1") = RIDING.
Proof.
  destruct (handleNoteChange_payload [Examples.ridingIn] initial "u1" "running late")
    as (_ & H & _).
  destruct (H Examples.ridingIn ltac:(reflexivity)) as (Hs & Ht & _).
  split; [exact Hs | apply Ht; reflexivity].
Defined.



(** C10. The submission mark is one slot: at most one user is marked,
    and starting a status change for [v] unmarks every other user, also
    one whose own request has not settled. *)
Theorem isSubmitting_single_slot :
  (forall st a b,
      isSubmitting st a = true -> isSubmitting st b = true -> a = b) /\
  (forall responses st u v status,
      u <> v ->
      let st1 := fst (fst (handleStatusClick_start responses st v status)) in
      isSubmitting st1 v = true /\ isSubmitting st1 u = false) /\
  (forall responses responses' st u v statusU statusV,
      u <> v ->
      let st1 := fst (fst (handleStatusClick_start responses st u statusU)) in
      let st2 := fst (fst (handleStatusClick_start responses' st1 v statusV)) in
      isSubmitting st1 u = true /\
      isSubmitting st2 u = false /\
      isSubmitting st2 v = true).
Proof.
  assert (forall responses st v status,
             submittingResponse
               (fst (fst (handleStatusClick_start responses st v status)))
             = Some v) as Hstart.
  { intros responses st v status. unfold handleStatusClick_start.
    destruct (match getUserResponse responses st v with
              | Some c => statusEqb (Response.status c) status
              | None => false
              end); reflexivity. }
  split; [|split].
  - intros st a b. unfold isSubmitting.
    destruct (submittingResponse st) as [w|]; [|discriminate].
    rewrite !String.eqb_eq. congruence.
  - intros responses st u v status Hne st1. subst st1.
    unfold isSubmitting. rewrite Hstart. split.
    + apply String.eqb_refl.
    + apply String.eqb_neq. congruence.
  - intros responses responses' st u v statusU statusV Hne st1 st2.
    subst st1 st2. unfold isSubmitting. rewrite !Hstart. repeat split.
    + apply String.eqb_refl.
    + apply String.eqb_neq. congruence.
    + apply String.eqb_refl.
Qed.

Lemma isSubmitting_single_slot_witness :
  let st1 := fst (fst (handleStatusClick_start [] initial "u1" IN)) in
  let st2 := fst (fst (handleStatusClick_start [] st1 "u2" OUT)) in
  isSubmitting st1 "u1" = true /\
  isSubmitting st2 "u1" = false /\
  isSubmitting st2 "u2" = true.
Proof.
  destruct isSubmitting_single_slot as (_ & _ & H).
  apply (H [] [] initial "u1" "u2" IN OUT). discriminate.
Defined.

(** The overlay after the callbacks of a list of timers have run. *)
Lemma lookup_after_callbacks (due : list Timer.t) (st : State) (u : string) :
  optimisticResponses
    (fold_left (fun s t => clearEntry (Timer.userId t) s) due st) !! u
  = if existsb (fun t => String.eqb (Timer.userId t) u) due
    then None else optimisticResponses st !! u.
Proof.
  revert st. induction due as [|t due IH]; intros st; simpl; [reflexivity|].
  rewrite IH, lookup_clearEntry.
  destruct (String.eqb (Timer.userId t) u) eqn:E; simpl.
  - apply String.eqb_eq in E.
    destruct (decide (Timer.userId t = u)); [|contradiction].
    now destruct (existsb _ due).
  - apply String.eqb_neq in E.
    destruct (decide (Timer.userId t = u)); [contradiction | reflexivity].
Qed.

Lemma lookup_advance (ms : Z) (st : State) (u : string) :
  optimisticResponses (advance ms st) !! u
  = if existsb (fun t => String.eqb (Timer.userId t) u)
               (List.filter (fun t => (Timer.remainingMs t <=? ms)%Z) (timers st))
    then None else optimisticResponses st !! u.
Proof. unfold advance. simpl. apply lookup_after_callbacks. Qed.



End HookFacts.


(** * More about the retry engine *)

Section ApiMore.
Import JsString Api.

(** The pause grows with the attempt, from 1500 ms up to the cap of
    15000 ms, which it has reached from the fifth pause on. *)
Theorem calculateDelay_bounds :
  (forall attempt, (1500 <= calculateDelay attempt <= 15000)%Z) /\
  (forall a b, (a <= b)%nat -> (calculateDelay a <= calculateDelay b)%Z) /\
  (forall attempt, (attempt <= 3)%nat ->
                   calculateDelay attempt = (1500 * 2 ^ Z.of_nat attempt)%Z) /\
  (forall attempt, (4 <= attempt)%nat -> calculateDelay attempt = 15000%Z).
Proof.
  assert (forall a b, (a <= b)%nat -> (2 ^ Z.of_nat a <= 2 ^ Z.of_nat b)%Z) as Hpow
      by (intros a b Hab; apply Z.pow_le_mono_r; lia).
  assert (forall a, (1 <= 2 ^ Z.of_nat a)%Z) as Hone
      by (intros a; specialize (Hpow 0%nat a ltac:(lia)); simpl in Hpow; lia).
  unfold calculateDelay; simpl. repeat split.
  - specialize (Hone attempt). lia.
  - lia.
  - intros a b Hab. specialize (Hpow a b Hab). lia.
  - intros attempt Ha. specialize (Hpow attempt 3%nat Ha).
    change (2 ^ Z.of_nat 3)%Z with 8%Z in Hpow. lia.
  - intros attempt Ha. specialize (Hpow 4%nat attempt Ha).
    change (2 ^ Z.of_nat 4)%Z with 16%Z in Hpow. lia.
Qed.

Lemma calculateDelay_bounds_witness :
  calculateDelay 2 = 6000%Z /\ calculateDelay 7 = 15000%Z /\
  (calculateDelay 2 <= calculateDelay 7)%Z.
Proof.
  destruct calculateDelay_bounds as (_ & Hmono & Hlow & Hcap).
  split; [apply (Hlow 2%nat); lia|].
  split; [apply (Hcap 7%nat); lia | apply Hmono; lia].
Defined.

Lemma fold_extend_step (trace : list Event) (a k : nat) :
  fold_left extend (seq (S a) k) (extend trace a)
  = fold_left extend (seq a (S k)) trace.
Proof. reflexivity. Qed.

(** How a run of the loop ends, whatever the network does: after some
    attempt [n - 1], with the trace of [n] attempts, on the failure or
    the body of that attempt. *)
Lemma retryLoop_shape (fetch : nat -> FetchResult) (remaining : nat) :
  forall attempt lastError lastResponse trace,
    (attempt + S remaining = 5)%nat ->
    exists n,
      (attempt < n <= 5)%nat /\
      snd (retryLoop fetch (S remaining) attempt lastError lastResponse trace)
      = fold_left extend (seq attempt (n - attempt)) trace /\
      match fst (retryLoop fetch (S remaining) attempt lastError lastResponse trace)
      with
      | Thrown e =>
          exists err, e = Some err /\ failureOf (fetch (n - 1)%nat) = Some err
      | Returned data =>
          exists r, fetch (n - 1)%nat = inr r /\ ok r = true /\ json r = inl data
      end.
Proof.
  induction remaining as [|remaining IH];
    intros attempt lastError lastResponse trace Hsum.
  - (* the last attempt *)
    assert (attempt = 4%nat) as -> by lia.
    exists 5%nat. split; [lia|]. cbn [retryLoop].
    change (4 =? maxRetries RETRY_CONFIG)%nat with true.
    change (fetch (5 - 1)%nat) with (fetch 4%nat).
    destruct (fetch 4%nat) as [e | r] eqn:Hf; simpl; rewrite ?orb_true_r.
    + split; [reflexivity | now exists e].
    + destruct (ok r) eqn:Hok; simpl; rewrite ?orb_true_r.
      * destruct (json r) as [data | e] eqn:Hj; simpl; rewrite ?orb_true_r.
        -- split; [reflexivity | now exists r].
        -- split; [reflexivity|]. now exists e.
      * split; [reflexivity|]. now exists (httpError r).
  - assert ((attempt =? maxRetries RETRY_CONFIG)%nat = false) as Hne
        by (apply Nat.eqb_neq; simpl; lia).
    (* what happens when the loop goes on *)
    assert (forall le lr,
               exists n,
                 (attempt < n <= 5)%nat /\
                 snd (retryLoop fetch (S remaining) (S attempt) le lr
                                (extend trace attempt))
                 = fold_left extend (seq attempt (n - attempt)) trace /\
                 match fst (retryLoop fetch (S remaining) (S attempt) le lr
                                      (extend trace attempt)) with
                 | Thrown e =>
                     exists err, e = Some err /\
                                 failureOf (fetch (n - 1)%nat) = Some err
                 | Returned data =>
                     exists r, fetch (n - 1)%nat = inr r /\ ok r = true /\
                               json r = inl data
                 end) as Hnext.
    { intros le lr.
      destruct (IH (S attempt) le lr (extend trace attempt) ltac:(lia))
        as (n & Hn & Htrace & Hout).
      exists n. split; [lia|]. split; [|exact Hout].
      rewrite Htrace. replace (n - attempt)%nat with (S (n - S attempt)) by lia.
      apply fold_extend_step. }
    (* what happens when it stops here *)
    assert (fold_left extend (seq attempt (S attempt - attempt)) trace
            = extend trace attempt) as Hstop
        by (replace (S attempt - attempt)%nat with 1%nat by lia; reflexivity).
    assert (fetch (S attempt - 1)%nat = fetch attempt) as Hidx
        by (f_equal; lia).
    remember (S remaining) as fuel eqn:Hfuel.
    cbn [retryLoop]. rewrite Hne. fold (extend trace attempt).
    destruct (fetch attempt) as [e | r] eqn:Hf; rewrite ?orb_false_r.
    + destruct (isRetryableError e lastResponse); cbn [negb].
      * apply Hnext.
      * exists (S attempt). split; [lia|]. split; [now rewrite Hstop|].
        exists e. rewrite Hidx. now split.
    + destruct (ok r) eqn:Hok; cbn [negb].
      * destruct (json r) as [data | e] eqn:Hj; rewrite ?orb_false_r.
        -- exists (S attempt). split; [lia|]. split; [now rewrite Hstop|].
           exists r. now rewrite Hidx.
        -- destruct (isRetryableError e (Some r)); cbn [negb].
           ++ apply Hnext.
           ++ exists (S attempt). split; [lia|]. split; [now rewrite Hstop|].
              exists e. rewrite Hidx. simpl. rewrite Hok, Hj. now split.
      * destruct (isRetryableError (httpError r) (Some r)) eqn:Hr; cbn [negb].
        -- apply Hnext.
        -- exists (S attempt). split; [lia|]. split; [now rewrite Hstop|].
           exists (httpError r). rewrite Hidx. simpl. rewrite Hok. now split.
Qed.

Lemma schedule_facts (n : nat) :
  (1 <= n <= 5)%nat ->
  attempts (Trace.schedule n) = n /\
  List.length (delays (Trace.schedule n)) = (n - 1)%nat /\
  (totalDelay (Trace.schedule n) <= 22500)%Z.
Proof.
  intros Hn.
  assert (n = 1 \/ n = 2 \/ n = 3 \/ n = 4 \/ n = 5)%nat
    as [-> | [-> | [-> | [-> | ->]]]] by lia;
    vm_compute; repeat split; discriminate.
Qed.

(** Whatever the network does, a request makes between one and five
    attempts, pauses only between attempts and for at most 22500 ms in
    all, and ends on its last attempt: it returns the body of that
    attempt's ok answer or throws that attempt's failure, never an
    undefined value. *)
Theorem apiRequest_always (fetch : nat -> FetchResult) :
  exists n,
    (1 <= n <= 5)%nat /\
    snd (apiRequest fetch) = Trace.schedule n /\
    attempts (snd (apiRequest fetch)) = n /\
    List.length (delays (snd (apiRequest fetch))) = (n - 1)%nat /\
    (totalDelay (snd (apiRequest fetch)) <= 22500)%Z /\
    match fst (apiRequest fetch) with
    | Thrown e => exists err, e = Some err /\ failureOf (fetch (n - 1)%nat) = Some err
    | Returned data =>
        exists r, fetch (n - 1)%nat = inr r /\ ok r = true /\ json r = inl data
    end.
Proof.
  unfold apiRequest.
  destruct (retryLoop_shape fetch 4 0 None None [] eq_refl)
    as (n & Hn & Htrace & Hout).
  change (S (maxRetries RETRY_CONFIG)) with 5%nat.
  exists n. split; [lia|].
  assert (snd (retryLoop fetch 5 0 None None []) = Trace.schedule n) as Hs.
  { rewrite Htrace. unfold Trace.schedule. now rewrite Nat.sub_0_r. }
  split; [exact Hs|]. rewrite Hs.
  destruct (schedule_facts n ltac:(lia)) as (Ha & Hd & Ht).
  repeat (split; [assumption|]). exact Hout.
Qed.

Lemma retryLoop_success_after (fetch : nat -> FetchResult) (k : nat)
      (r : Response) (data : Json) :
  (k <= 4)%nat ->
  fetch k = inr r -> ok r = true -> json r = inl data ->
  forall d attempt remaining lastError lastResponse trace,
    (attempt + d = k)%nat -> (d <= remaining)%nat ->
    (forall j, (attempt <= j < k)%nat -> transientFailure (fetch j)) ->
    retryLoop fetch (S remaining) attempt lastError lastResponse trace
    = (Returned data, fold_left extend (seq attempt (S d)) trace).
Proof.
  intros Hk Hf Hok Hj.
  induction d as [|d IH];
    intros attempt remaining lastError lastResponse trace Hsum Hrem Hall.
  - assert (attempt = k) as -> by lia.
    cbn [retryLoop]. rewrite Hf, Hok, Hj. reflexivity.
  - destruct (retryLoop_transient fetch remaining attempt lastError lastResponse
                trace (Hall attempt ltac:(lia))) as (err & lr & _ & ->).
    assert ((attempt =? maxRetries RETRY_CONFIG)%nat = false) as ->
        by (apply Nat.eqb_neq; simpl; lia).
    destruct remaining as [|remaining]; [lia|].
    rewrite (IH (S attempt) remaining (Some err) lr (extend trace attempt));
      [reflexivity | lia | lia | intros j Hj'; apply Hall; lia].
Qed.

(** Transient failures followed by an ok answer: the request returns
    that answer's body, after one attempt more than there were failures. *)
Theorem apiRequest_retry_then_success
        (fetch : nat -> FetchResult) (k : nat) (r : Response) (data : Json) :
  (k <= maxRetries RETRY_CONFIG)%nat ->
  (forall j, (j < k)%nat -> transientFailure (fetch j)) ->
  fetch k = inr r -> ok r = true -> json r = inl data ->
  apiRequest fetch = (Returned data, Trace.schedule (S k)) /\
  attempts (snd (apiRequest fetch)) = S k /\
  delays (snd (apiRequest fetch)) = map calculateDelay (seq 0 k).
Proof.
  intros Hk Hall Hf Hok Hj. change (maxRetries RETRY_CONFIG) with 4%nat in Hk.
  assert (apiRequest fetch = (Returned data, Trace.schedule (S k))) as Heq.
  { unfold apiRequest. change (maxRetries RETRY_CONFIG) with 4%nat.
    apply (retryLoop_success_after fetch k r data Hk Hf Hok Hj k 0 4 None None []);
      [lia | lia | intros j Hj'; apply Hall; lia]. }
  split; [exact Heq|]. rewrite Heq. simpl snd.
  assert (k = 0 \/ k = 1 \/ k = 2 \/ k = 3 \/ k = 4)%nat
    as [-> | [-> | [-> | [-> | ->]]]] by lia; split; reflexivity.
Qed.

Lemma apiRequest_retry_then_success_witness :
  apiRequest MoreExamples.twoTimeouts
  = (Returned {| error := None; payload := "[]" |},
     [Fetch 0; Sleep 1500; Fetch 1; Sleep 3000; Fetch 2]).
Proof.
  apply (apiRequest_retry_then_success
           MoreExamples.twoTimeouts 2 MoreExamples.fine).
  - simpl. lia.
  - intros j Hj. exists (mkError "Request timeout").
    destruct j as [|[|j]]; [split; reflexivity | split; reflexivity | lia].
  - reflexivity.
  - reflexivity.
  - reflexivity.
Defined.

Lemma schedule_from (a k : nat) :
  fold_left extend (seq a k) (Trace.schedule a) = Trace.schedule (a + k).
Proof.
  unfold Trace.schedule. now rewrite seq_app, fold_left_app.
Qed.

(** The classifier is asked about a rejected [fetch] together with the
    response of an earlier attempt. After a 502, 503, 504 or 0 answer a
    rejection is therefore retried whatever its error is, while the same
    error on a first attempt ends the request. *)
Theorem apiRequest_remembers_last_response
        (fetch : nat -> FetchResult) (r : Response) (e : JsError) :
  fetch 0%nat = inr r -> ok r = false ->
  Spec.hasTransientStatus (Some r) ->
  fetch 1%nat = inl e ->
  (3 <= attempts (snd (apiRequest fetch)))%nat /\
  (isRetryableError e None = false ->
   forall fetch', fetch' 0%nat = inl e ->
                  apiRequest fetch' = (Thrown (Some e), [Fetch 0])).
Proof.
  intros Hf0 Hok Hst Hf1. split.
  - assert (forall err, isRetryableError err (Some r) = true) as Hretry
        by (intros err; apply isRetryableError_iff; now right).
    assert (apiRequest fetch
            = retryLoop fetch 3 2 (Some e) (Some r) (Trace.schedule 2)) as ->.
    { unfold apiRequest. change (S (maxRetries RETRY_CONFIG)) with 5%nat.
      cbn [retryLoop]. rewrite Hf0, Hok. cbn [negb]. rewrite Hretry.
      cbn [negb orb]. change (0 =? maxRetries RETRY_CONFIG)%nat with false.
      cbn iota. rewrite Hf1, Hretry. reflexivity. }
    destruct (retryLoop_shape fetch 2 2 (Some e) (Some r)
                (Trace.schedule 2) eq_refl) as (n & Hn & Htrace & _).
    rewrite Htrace, schedule_from.
    replace (2 + (n - 2))%nat with n by lia.
    destruct (schedule_facts n ltac:(lia)) as (-> & _). lia.
  - intros Hno fetch' Hf'. unfold apiRequest. cbn [retryLoop].
    rewrite Hf', Hno. reflexivity.
Qed.

Lemma apiRequest_remembers_last_response_witness :
  (3 <= attempts (snd (apiRequest MoreExamples.unavailableThenSilent)))%nat /\
  apiRequest (fun _ => inl MoreExamples.silent)
  = (Thrown (Some MoreExamples.silent), [Fetch 0]).
Proof.
  destruct (apiRequest_remembers_last_response
              MoreExamples.unavailableThenSilent MoreExamples.unavailable
              MoreExamples.silent) as (H3 & H1).
  - reflexivity.
  - reflexivity.
  - exists MoreExamples.unavailable. split; [reflexivity|]. simpl. lia.
  - reflexivity.
  - split; [exact H3|]. apply H1; reflexivity.
Defined.
End ApiMore.


(** * The utilities of lib/api *)

Section GolfUtilsFacts.
Import GolfUtilsRest.

Lemma count_by_status (responses : list Response.t) :
  (List.length (List.filter (fun r => statusEqb (Response.status r) IN) responses)
   + List.length (List.filter (fun r => statusEqb (Response.status r) OUT) responses)
   + List.length (List.filter (fun r => statusEqb (Response.status r) UNDECIDED)
                              responses)
   = List.length responses)%nat.
Proof.
  induction responses as [|r rs IH]; [reflexivity|].
  simpl. destruct (Response.status r); simpl; lia.
Qed.

(** The three counts split the responses: they add up to the total,
    which is the number of responses, and the counts of two lists put
    together are the sums of their counts. *)
Theorem getResponseCounts_partition (responses more : list Response.t) :
  (inCount (getResponseCounts responses)
   + outCount (getResponseCounts responses)
   + undecidedCount (getResponseCounts responses)
   = total (getResponseCounts responses))%nat /\
  total (getResponseCounts responses) = List.length responses /\
  (inCount (getResponseCounts (responses ++ more))
   = inCount (getResponseCounts responses) + inCount (getResponseCounts more))%nat /\
  (outCount (getResponseCounts (responses ++ more))
   = outCount (getResponseCounts responses) + outCount (getResponseCounts more))%nat /\
  (undecidedCount (getResponseCounts (responses ++ more))
   = undecidedCount (getResponseCounts responses)
     + undecidedCount (getResponseCounts more))%nat.
Proof.
  unfold getResponseCounts. simpl.
  split; [apply count_by_status|]. split; [reflexivity|].
  rewrite !List.filter_app, !length_app. repeat split.
Qed.


Lemma includesId_In (ids : list string) (tagId : string) :
  includesId ids tagId = true <-> In tagId ids.
Proof.
  unfold includesId. rewrite existsb_exists. split.
  - intros (i & Hin & Heq). apply String.eqb_eq in Heq. now subst.
  - intros Hin. exists tagId. split; [exact Hin | apply String.eqb_refl].
Qed.

Lemma keeps_user_iff (user : User.t) (session : GolfSession.t) :
  match User.userTags user with
  | None | Some [] => false
  | Some userTags => existsb (includesId (Words.tagIdsOf session)) userTags
  end = true
  <-> Words.sharesTag user session.
Proof.
  unfold Words.sharesTag, Words.userTagsOf.
  destruct (User.userTags user) as [[|t ts]|].
  - split; [discriminate | intros (tagId & [] & _)].
  - rewrite existsb_exists. split.
    + intros (tagId & Hin & Hinc). exists tagId. split; [exact Hin|].
      now apply includesId_In.
    + intros (tagId & Hin & Hinc). exists tagId. split; [exact Hin|].
      now apply includesId_In.
  - split; [discriminate | intros (tagId & [] & _)].
Qed.

(** A session without tags is open to every user. A session with tags
    is open to exactly the users who have one of its tags; users without
    tags are left out. The users keep their order and none is invented. *)
Theorem filterUsersBySessionTags_spec
        (allUsers : list User.t) (session : GolfSession.t) :
  (Words.tagIdsOf session = [] ->
   filterUsersBySessionTags allUsers session = map card allUsers) /\
  (Words.tagIdsOf session <> [] ->
   filterUsersBySessionTags allUsers session
   = map card (List.filter
                 (fun user =>
                    existsb (includesId (Words.tagIdsOf session))
                            (Words.userTagsOf user))
                 allUsers) /\
   (forall user, In user allUsers ->
                 Words.sharesTag user session ->
                 In (card user) (filterUsersBySessionTags allUsers session)) /\
   (forall c, In c (filterUsersBySessionTags allUsers session) ->
              exists user, In user allUsers /\ card user = c /\
                           Words.sharesTag user session) /\
   (forall user, In user allUsers -> Words.userTagsOf user = [] ->
                 Words.sharesTag user session -> False)) /\
  (List.length (filterUsersBySessionTags allUsers session)
   <= List.length allUsers)%nat.
Proof.
  unfold filterUsersBySessionTags.
  assert (forall l,
             List.filter
               (fun user =>
                  match User.userTags user with
                  | None | Some [] => false
                  | Some userTags =>
                      existsb (includesId (Words.tagIdsOf session)) userTags
                  end) l
             = List.filter
                 (fun user =>
                    existsb (includesId (Words.tagIdsOf session))
                            (Words.userTagsOf user)) l) as Hsame.
  { intros l. apply filter_ext. intros user. unfold Words.userTagsOf.
    now destruct (User.userTags user) as [[|t ts]|]. }
  split; [|split].
  - unfold Words.tagIdsOf.
    destruct (GolfSession.sessionTags session) as [[|st sts]|];
      [reflexivity | discriminate | reflexivity].
  - intros Hne.
    assert (exists st sts, GolfSession.sessionTags session = Some (st :: sts))
      as (st & sts & Htags).
    { unfold Words.tagIdsOf in Hne.
      destruct (GolfSession.sessionTags session) as [[|st sts]|];
        [contradiction | eauto | contradiction]. }
    assert (map (fun st0 => Tag.id (SessionTag.tag st0)) (st :: sts)
            = Words.tagIdsOf session) as Hids
        by (unfold Words.tagIdsOf; now rewrite Htags).
    rewrite Htags, Hids, Hsame. split; [reflexivity|]. split; [|split].
    + intros user Hin Hshare. apply in_map, filter_In. split; [exact Hin|].
      apply keeps_user_iff in Hshare. unfold Words.userTagsOf.
      now destruct (User.userTags user) as [[|t ts]|].
    + intros c Hc. apply in_map_iff in Hc as (user & Hcard & Hin).
      apply filter_In in Hin as [Hin Hkeep].
      exists user. split; [exact Hin|]. split; [exact Hcard|].
      apply keeps_user_iff. unfold Words.userTagsOf in Hkeep.
      now destruct (User.userTags user) as [[|t ts]|].
    + intros user _ Hnone (tagId & Hin & _). rewrite Hnone in Hin. contradiction.
  - destruct (GolfSession.sessionTags session) as [[|st sts]|];
      rewrite ?length_map; try lia.
    apply filter_length_le.
Qed.

Lemma filterUsersBySessionTags_spec_witness :
  let members := Tag.mk "t1" "Members" None in
  let session := GolfSession.mk "s1" "Saturday" "2026-05-02T08:00:00Z" None
                   Examples.alice []
                   (Some [SessionTag.mk "st1" "s1" "t1" "" members]) in
  let users := [User.mk "u1" "Alice" "Al" (Some ["t1"]);
                User.mk "u2" "Bob" "Bo" None] in
  filterUsersBySessionTags users session = [UserCard.mk "u1" "Alice" "Al"].
Proof.
  intros members session users.
  destruct (filterUsersBySessionTags_spec users session) as (_ & H & _).
  destruct (H ltac:(discriminate)) as (-> & _). reflexivity.
Defined.

Section DateFacts.
Variable parse : string -> option Z.
Variable now : Z.

Lemma firstAfterNow_Some (sessions : list GolfSession.t) :
  forall start i,
    firstAfterNow parse now sessions start = Some i ->
    (start <= i < start + List.length sessions)%nat /\
    (exists s, nth_error sessions (i - start) = Some s /\
               isAfterNow parse now s = true) /\
    (forall j s, (j < i - start)%nat -> nth_error sessions j = Some s ->
                 isAfterNow parse now s = false).
Proof.
  induction sessions as [|s rest IH]; intros start i H; simpl in H; [discriminate|].
  destruct (isAfterNow parse now s) eqn:E.
  - injection H as <-. simpl. split; [lia|]. rewrite Nat.sub_diag. split.
    + now exists s.
    + intros j s' Hj. lia.
  - apply IH in H as (Hrange & (s' & Hnth & Hafter) & Hbefore).
    simpl. split; [lia|].
    replace (i - start)%nat with (S (i - S start)) by lia. split.
    + now exists s'.
    + intros j s'' Hj Hnth'. destruct j as [|j]; simpl in Hnth'.
      * now injection Hnth' as <-.
      * apply (Hbefore j); [lia | exact Hnth'].
Qed.

Lemma firstAfterNow_None (sessions : list GolfSession.t) :
  forall start,
    firstAfterNow parse now sessions start = None <->
    (forall s, In s sessions -> isAfterNow parse now s = false).
Proof.
  induction sessions as [|s rest IH]; intros start; simpl.
  - split; [intros _ s [] | reflexivity].
  - destruct (isAfterNow parse now s) eqn:E.
    + split; [discriminate|]. intros H. specialize (H s (or_introl eq_refl)).
      congruence.
    + rewrite IH. split.
      * intros H s' [<- | Hin]; auto.
      * intros H s' Hin. apply H. now right.
Qed.

(** The index of the upcoming session is always a position of the list
    (0 for the empty list). It is the position of the first session that
    is later than now; when no session is, also when the dates cannot be
    read, it is 0. *)
Theorem findUpcomingSessionIndex_spec (sessions : list GolfSession.t) :
  let i := findUpcomingSessionIndex parse now sessions in
  (sessions <> [] -> (i < List.length sessions)%nat) /\
  (sessions = [] -> i = 0%nat) /\
  ((exists s, In s sessions /\ isAfterNow parse now s = true) ->
   (exists s, nth_error sessions i = Some s /\ isAfterNow parse now s = true) /\
   (forall j s, (j < i)%nat -> nth_error sessions j = Some s ->
                isAfterNow parse now s = false)) /\
  ((forall s, In s sessions -> isAfterNow parse now s = false) -> i = 0%nat).
Proof.
  unfold findUpcomingSessionIndex.
  destruct sessions as [|s0 rest]; simpl List.length; simpl Nat.eqb.
  - cbv zeta. split; [intros H; contradiction|]. split; [reflexivity|].
    split; [intros (s & [] & _) | reflexivity].
  - cbv zeta. destruct (firstAfterNow parse now (s0 :: rest) 0) as [i|] eqn:E.
    + apply firstAfterNow_Some in E as (Hrange & Hat & Hbefore).
      rewrite Nat.sub_0_r in *. simpl List.length in Hrange.
      split; [intros _; simpl; lia|]. split; [discriminate|]. split.
      * intros _. split; [exact Hat | exact Hbefore].
      * intros Hnone. destruct Hat as (s & Hnth & Hafter).
        apply nth_error_In in Hnth. rewrite (Hnone s Hnth) in Hafter.
        discriminate.
    + pose proof (proj1 (firstAfterNow_None (s0 :: rest) 0) E) as Hnone.
      split; [intros _; simpl; lia|]. split; [discriminate|]. split.
      * intros (s & Hin & Hafter). rewrite (Hnone s Hin) in Hafter. discriminate.
      * reflexivity.
Qed.
End DateFacts.

Lemma findUpcomingSessionIndex_spec_witness :
  let parse := fun s : string => if String.eqb s "past" then Some 10%Z
                                 else if String.eqb s "soon" then Some 30%Z
                                      else None in
  let mk := fun d => GolfSession.mk d d d None Examples.alice [] None in
  findUpcomingSessionIndex parse 20 [mk "past"; mk "garbled"; mk "soon"] = 2%nat.
Proof.
  intros parse mk.
  destruct (findUpcomingSessionIndex_spec parse 20
              [mk "past"; mk "garbled"; mk "soon"]) as (_ & _ & H & _).
  destruct H as ((s & Hnth & Hafter) & Hbefore).
  - exists (mk "soon"). split; [simpl; auto | reflexivity].
  - reflexivity.
Defined.
End GolfUtilsFacts.


(** * The response mutations, from the request to the list of sessions *)

Section MutationFacts.
Import JsString.

Lemma userOf_id (users : list User.t) (userId : string) :
  UserRef.id (SessionApi.userOf users userId) = userId.
Proof.
  unfold SessionApi.userOf.
  destruct (List.find _ users) as [user|] eqn:E; [|reflexivity].
  apply find_some in E as [_ E]. now apply String.eqb_eq in E.
Qed.

Lemma recordsOf_after_submit (userId : string) (responses : list Response.t)
      (echo : Response.t) :
  UserRef.id (Response.user echo) = userId ->
  Words.recordsOf userId
    (List.filter (fun r => negb (String.eqb (UserRef.id (Response.user r)) userId))
                 responses ++ [echo])%list
  = [echo].
Proof.
  intros Hecho. unfold Words.recordsOf. rewrite List.filter_app.
  assert (List.filter (Words.ofUser userId)
            (List.filter
               (fun r => negb (String.eqb (UserRef.id (Response.user r)) userId))
               responses) = []) as ->.
  { induction responses as [|r rs IH]; [reflexivity|]. simpl.
    destruct (String.eqb (UserRef.id (Response.user r)) userId) eqn:E; simpl;
      [exact IH|]. unfold Words.ofUser at 1. now rewrite E. }
  simpl. unfold Words.ofUser. now rewrite (proj2 (String.eqb_eq _ _) Hecho).
Qed.

Lemma recordsOf_app (v : string) (a b : list Response.t) :
  Words.recordsOf v (a ++ b)%list
  = (Words.recordsOf v a ++ Words.recordsOf v b)%list.
Proof. apply List.filter_app. Qed.

Lemma recordsOf_other_user (userId v : string) (responses : list Response.t) :
  v <> userId ->
  Words.recordsOf v
    (List.filter (fun r => negb (String.eqb (UserRef.id (Response.user r)) userId))
                 responses)
  = Words.recordsOf v responses.
Proof.
  intros Hne. unfold Words.recordsOf, Words.ofUser.
  induction responses as [|r rs IH]; [reflexivity|]. simpl.
  destruct (String.eqb (UserRef.id (Response.user r)) userId) eqn:E; simpl.
  - apply String.eqb_eq in E.
    assert (String.eqb (UserRef.id (Response.user r)) v = false) as ->
        by (apply String.eqb_neq; congruence).
    exact IH.
  - now rewrite IH.
Qed.

(** A submit that went through. The echo carries the stored fields and
    the identity of the user it was submitted for. In every session with
    the given id it is afterwards the only response of that user; the
    responses of the other users and the other sessions are as before. A
    session id that is not in the list changes nothing, and the result
    still says success. *)
Theorem submitResponse_applied
        (st : SessionsState.State) (sessionId : string)
        (responseData : SessionApi.ResponseData.t)
        (stored : SessionApi.Stored.t) (users : list User.t) :
  let userId := SessionApi.ResponseData.userId responseData in
  let api := SessionApi.submitResponse responseData (inr stored) (inr users) in
  let st' := fst (SessionsState.submitResponse st sessionId responseData api) in
  exists echo,
    api = inr echo /\
    echo = Response.mk (SessionApi.Stored.id stored) (SessionApi.Stored.status stored)
                       (SessionApi.Stored.note stored)
                       (SessionApi.Stored.transport stored)
                       (SessionApi.userOf users userId) /\
    UserRef.id (Response.user echo) = userId /\
    snd (SessionsState.submitResponse st sessionId responseData api)
    = Result.mk true None /\
    map GolfSession.id (SessionsState.sessions st')
    = map GolfSession.id (SessionsState.sessions st) /\
    (forall s', In s' (SessionsState.sessions st') ->
                GolfSession.id s' = sessionId ->
                Words.recordsOf userId (GolfSession.responses s') = [echo] /\
                GolfUtils.findUserResponse (GolfSession.responses s') userId
                = Some echo) /\
    (forall i s, nth_error (SessionsState.sessions st) i = Some s ->
       exists s', nth_error (SessionsState.sessions st') i = Some s' /\
                  (GolfSession.id s <> sessionId -> s' = s) /\
                  (forall v, v <> userId ->
                             Words.recordsOf v (GolfSession.responses s')
                             = Words.recordsOf v (GolfSession.responses s))) /\
    ((forall s, In s (SessionsState.sessions st) -> GolfSession.id s <> sessionId) ->
     SessionsState.sessions st' = SessionsState.sessions st).
Proof.
  intros userId api st'. subst api st'. simpl.
  set (echo := Response.mk _ _ _ _ _).
  assert (UserRef.id (Response.user echo) = userId) as Hecho
      by apply userOf_id.
  exists echo. split; [reflexivity|]. split; [reflexivity|].
  split; [exact Hecho|]. split; [reflexivity|].
  set (f := fun session : GolfSession.t => _).
  assert (forall s, GolfSession.id (f s) = GolfSession.id s) as Hid
      by (intros s; unfold f; destruct (String.eqb _ sessionId); reflexivity).
  assert (forall s, GolfSession.id s <> sessionId -> f s = s) as Hother.
  { intros s Hne. unfold f. now rewrite (proj2 (String.eqb_neq _ _) Hne). }
  split; [|split; [|split]].
  - rewrite map_map. apply map_ext. exact Hid.
  - intros s' Hin Hsid. apply in_map_iff in Hin as (s & <- & _).
    rewrite Hid in Hsid. unfold f.
    rewrite (proj2 (String.eqb_eq _ _) Hsid). simpl. split.
    + now apply recordsOf_after_submit.
    + apply (findUserResponse_after_submit (GolfSession.responses s) userId echo
               Hecho).
  - intros i s Hnth. exists (f s). split; [now apply map_nth_error|].
    split; [apply Hother|]. intros v Hv. unfold f.
    destruct (String.eqb (GolfSession.id s) sessionId); [|reflexivity]. simpl.
    rewrite recordsOf_app, recordsOf_other_user by exact Hv.
    unfold Words.recordsOf at 2. simpl. unfold Words.ofUser at 1.
    rewrite Hecho.
    rewrite (proj2 (String.eqb_neq userId v)) by congruence.
    apply app_nil_r.
  - intros Hnone. rewrite <- (map_id (SessionsState.sessions st)) at 2.
    apply map_ext_in. intros s Hin. apply Hother, Hnone, Hin.
Qed.

Lemma submitResponse_applied_witness :
  let st := SessionsState.mkState [MoreExamples.saturday] None in
  let api := SessionApi.submitResponse MoreExamples.bobOut
               (inr MoreExamples.bobStored) (inr [MoreExamples.bob]) in
  let st' := fst (SessionsState.submitResponse st "s1" MoreExamples.bobOut api) in
  Words.recordsOf "u2"
    (GolfSession.responses (nth 0 (SessionsState.sessions st') MoreExamples.saturday))
  = [Response.mk "r2" OUT None None (UserRef.mk "u2" "Bo")].
Proof.
  intros st api st'.
  destruct (submitResponse_applied st "s1" MoreExamples.bobOut
              MoreExamples.bobStored [MoreExamples.bob])
    as (echo & _ & -> & _ & _ & _ & H & _).
  apply (H (nth 0 (SessionsState.sessions st') MoreExamples.saturday)).
  - left. reflexivity.
  - reflexivity.
Defined.

Lemma filter_not_user_idem (userId : string) (responses : list Response.t) :
  List.filter (fun r => negb (String.eqb (UserRef.id (Response.user r)) userId))
    (List.filter (fun r => negb (String.eqb (UserRef.id (Response.user r)) userId))
                 responses)
  = List.filter (fun r => negb (String.eqb (UserRef.id (Response.user r)) userId))
                responses.
Proof.
  induction responses as [|r rs IH]; [reflexivity|]. simpl.
  destruct (String.eqb (UserRef.id (Response.user r)) userId) eqn:E; simpl;
    [exact IH|]. now rewrite E, IH.
Qed.

(** A delete that went through. In every session with the given id the
    user has no response afterwards, the responses of the other users
    are as before, and deleting once more changes nothing. *)
Theorem deleteResponse_applied
        (st : SessionsState.State) (sessionId userId : string)
        (deleted : Response.t) :
  let st' := fst (SessionsState.deleteResponse st sessionId userId (inr deleted)) in
  snd (SessionsState.deleteResponse st sessionId userId (inr deleted))
  = Result.mk true None /\
  (forall s', In s' (SessionsState.sessions st') ->
              GolfSession.id s' = sessionId ->
              GolfUtils.findUserResponse (GolfSession.responses s') userId = None /\
              Words.recordsOf userId (GolfSession.responses s') = []) /\
  (forall i s, nth_error (SessionsState.sessions st) i = Some s ->
     exists s', nth_error (SessionsState.sessions st') i = Some s' /\
                (GolfSession.id s <> sessionId -> s' = s) /\
                (forall v, v <> userId ->
                           Words.recordsOf v (GolfSession.responses s')
                           = Words.recordsOf v (GolfSession.responses s))) /\
  fst (SessionsState.deleteResponse st' sessionId userId (inr deleted)) = st'.
Proof.
  intros st'. subst st'. simpl.
  set (f := fun session : GolfSession.t => _).
  assert (forall s, GolfSession.id (f s) = GolfSession.id s) as Hid
      by (intros s; unfold f; destruct (String.eqb _ sessionId); reflexivity).
  assert (forall l,
             List.filter (Words.ofUser userId)
               (List.filter
                  (fun r => negb (String.eqb (UserRef.id (Response.user r)) userId))
                  l) = []) as Hgone.
  { induction l as [|r rs IH]; [reflexivity|]. simpl.
    destruct (String.eqb (UserRef.id (Response.user r)) userId) eqn:E; simpl;
      [exact IH|]. unfold Words.ofUser at 1. now rewrite E. }
  split; [reflexivity|]. split; [|split].
  - intros s' Hin Hsid. apply in_map_iff in Hin as (s & <- & _).
    rewrite Hid in Hsid. unfold f. rewrite (proj2 (String.eqb_eq _ _) Hsid).
    simpl. split; [|apply Hgone].
    unfold GolfUtils.findUserResponse.
    destruct (List.find _ _) as [r|] eqn:E; [|reflexivity].
    apply find_some in E as [Hin Hr]. apply filter_In in Hin as [_ Hn].
    rewrite Hr in Hn. discriminate.
  - intros i s Hnth. exists (f s). split; [now apply map_nth_error|]. split.
    + intros Hne. unfold f. now rewrite (proj2 (String.eqb_neq _ _) Hne).
    + intros v Hv. unfold f.
      destruct (String.eqb (GolfSession.id s) sessionId); [|reflexivity].
      simpl. now apply recordsOf_other_user.
  - f_equal. rewrite map_map. apply map_ext. intros s. unfold f at 1.
    rewrite Hid. unfold f.
    destruct (String.eqb (GolfSession.id s) sessionId); [|reflexivity].
    unfold SessionsState.withResponses. simpl. now rewrite filter_not_user_idem.
Qed.

Lemma deleteResponse_applied_witness :
  let st := SessionsState.mkState [MoreExamples.saturday] None in
  let st' := fst (SessionsState.deleteResponse st "s1" "u2"
                    (inr Examples.emptyId)) in
  GolfUtils.findUserResponse
    (GolfSession.responses (nth 0 (SessionsState.sessions st') MoreExamples.saturday))
    "u2"
  = None.
Proof.
  intros st st'.
  destruct (deleteResponse_applied st "s1" "u2" Examples.emptyId)
    as (_ & H & _).
  apply (H (nth 0 (SessionsState.sessions st') MoreExamples.saturday)).
  - left. reflexivity.
  - reflexivity.
Defined.

(** When the request has been carried out and the query for the users
    that follows it fails, the mutation throws: the list of sessions
    stays as it was, the error is recorded and the caller is told that
    the submit, or the delete, failed. *)
Theorem applied_but_reported_failed
        (st : SessionsState.State) (sessionId : string)
        (responseData : SessionApi.ResponseData.t)
        (stored : SessionApi.Stored.t) (err : Caught) :
  let userId := SessionApi.ResponseData.userId responseData in
  SessionsState.submitResponse st sessionId responseData
    (SessionApi.submitResponse responseData (inr stored) (inl err))
  = (SessionsState.mkState (SessionsState.sessions st)
       (Some (messageOf err "Failed to submit response")),
     Result.mk false (Some (messageOf err "Failed to submit response"))) /\
  SessionsState.deleteResponse st sessionId userId
    (SessionApi.deleteResponse sessionId userId (inr tt) (inl err))
  = (SessionsState.mkState (SessionsState.sessions st)
       (Some (messageOf err "Failed to delete response")),
     Result.mk false (Some (messageOf err "Failed to delete response"))) /\
  (forall responses hook status,
      let run := Hook.handleStatusClick responses hook userId status
                   (Hook.Resolved
                      (snd (SessionsState.submitResponse st sessionId responseData
                              (SessionApi.submitResponse responseData (inr stored)
                                                         (inl err))))) in
      Hook.effectiveStatus responses hook userId <> Some status ->
      Hook.optimisticResponses (fst (fst run)) !! userId = None /\
      Hook.error (fst (fst run)) = None /\
      Result.success (snd (fst run)) = false).
Proof.
  intros userId. split; [reflexivity|]. split; [reflexivity|].
  intros responses hook status run Hother. subst run.
  unfold Hook.handleStatusClick.
  rewrite (handleStatusClick_start_other _ _ _ _ Hother). simpl.
  split; [apply lookup_delete_eq | split; reflexivity].
Qed.

Lemma applied_but_reported_failed_witness :
  let data := SessionApi.ResponseData.mk "u1" IN None (Some RIDING) in
  let stored := SessionApi.Stored.mk "r1" IN None (Some RIDING) "u1" "s1" in
  let failed := snd (SessionsState.submitResponse
                       (SessionsState.mkState [] None) "s1" data
                       (SessionApi.submitResponse data (inr stored)
                                                  (inl OtherValue))) in
  let run := Hook.handleStatusClick [] Hook.initial "u1" IN (Hook.Resolved failed) in
  Hook.optimisticResponses (fst (fst run)) !! "u1" = None /\
  Hook.error (fst (fst run)) = None /\
  Result.success (snd (fst run)) = false.
Proof.
  intros data stored failed run.
  destruct (applied_but_reported_failed
              (SessionsState.mkState [] None) "s1" data stored OtherValue)
    as (_ & _ & H).
  apply (H [] Hook.initial IN). vm_compute. discriminate.
Defined.
End MutationFacts.


(** * More about the hook *)

Section HookMore.
Import JsString Hook HookRest.

Ltac other_user :=
  simpl;
  repeat first [ rewrite lookup_insert_ne by assumption
               | rewrite lookup_delete_ne by assumption ];
  reflexivity.

(** An edit for one user never touches the overlay entry of another
    user, whichever handler runs and however the call settles. *)
Theorem handlers_keep_other_users
        (responses : list Response.t) (st : State) (userId other : string) :
  userId <> other ->
  (forall status answer,
      optimisticResponses
        (fst (fst (handleStatusClick responses st userId status answer))) !! other
      = optimisticResponses st !! other) /\
  (forall note answer,
      optimisticResponses
        (fst (fst (handleNoteChange responses st userId note answer))) !! other
      = optimisticResponses st !! other) /\
  (forall transport answer,
      optimisticResponses
        (fst (fst (handleTransportChange responses st userId transport answer)))
        !! other
      = optimisticResponses st !! other).
Proof.
  intros Hne. split; [|split].
  - intros status answer.
    unfold handleStatusClick, handleStatusClick_start, handleStatusClick_settle.
    destruct (getUserResponse responses st userId) as [c|];
      [destruct (statusEqb (Response.status c) status)|];
      destruct answer as [result | err];
      try destruct (Result.success result); other_user.
  - intros note answer.
    unfold handleNoteChange, handleNoteChange_start, handleNoteChange_settle.
    destruct answer as [result | err];
      try destruct (Result.success result); other_user.
  - intros transport answer.
    unfold handleTransportChange, handleTransportChange_start,
      handleTransportChange_settle.
    destruct answer as [result | err];
      try destruct (Result.success result); other_user.
Qed.

Lemma handlers_keep_other_users_witness :
  optimisticResponses
    (fst (fst (handleStatusClick [] Examples.pendingIn "u2" OUT
                                 (Rejected OtherValue)))) !! "u1"
  = optimisticResponses Examples.pendingIn !! "u1".
Proof.
  destruct (handlers_keep_other_users [] Examples.pendingIn "u2" "u1")
    as (H & _); [discriminate|]. apply H.
Defined.

(** When a status click has finished, no user is marked, the last error
    is the thrown message or nothing, and the overlay entry of the user
    is gone, except after a toggle-off whose delete returned a failure. *)
Theorem handleStatusClick_finished
        (responses : list Response.t) (st : State) (userId : string)
        (status : ResponseStatus) (answer : Settled) :
  let run := handleStatusClick responses st userId status answer in
  let st' := fst (fst run) in
  submittingResponse st' = None /\
  timers st' = timers st /\
  match answer with
  | Resolved result => snd (fst run) = result /\ error st' = None
  | Rejected err =>
      snd (fst run)
      = Result.mk false (Some (messageOf err "Failed to update response")) /\
      error st' = Some (messageOf err "Failed to update response")
  end /\
  ((effectiveStatus responses st userId <> Some status \/
    (exists result, answer = Resolved result /\ Result.success result = true) \/
    (exists err, answer = Rejected err)) ->
   optimisticResponses st' !! userId = None).
Proof.
  intros run st'. subst run st'.
  unfold handleStatusClick, handleStatusClick_start, handleStatusClick_settle,
    effectiveStatus.
  destruct (getUserResponse responses st userId) as [c|]; simpl.
  - destruct (statusEqb (Response.status c) status) eqn:E.
    + apply statusEqb_eq in E.
      destruct answer as [result | err];
        [destruct (Result.success result) eqn:Hs|]; simpl;
        (split; [reflexivity|]); (split; [reflexivity|]);
        (split; [split; reflexivity|]).
      * intros _. apply lookup_delete_eq.
      * intros [Hne | [(r & [= <-] & Hr) | (err & [=])]]; congruence.
      * intros _. rewrite lookup_delete_eq. reflexivity.
    + destruct answer as [result | err];
        [destruct (Result.success result)|]; simpl;
        (split; [reflexivity|]); (split; [reflexivity|]);
        (split; [split; reflexivity|]); intros _; apply lookup_delete_eq.
  - destruct answer as [result | err];
      [destruct (Result.success result)|]; simpl;
      (split; [reflexivity|]); (split; [reflexivity|]);
      (split; [split; reflexivity|]); intros _; apply lookup_delete_eq.
Qed.

Lemma handleStatusClick_finished_witness :
  optimisticResponses
    (fst (fst (handleStatusClick [Examples.ridingIn] initial "u1" IN
                                 (Rejected (ErrorObject "offline"))))) !! "u1"
  = None.
Proof.
  destruct (handleStatusClick_finished [Examples.ridingIn] initial "u1" IN
              (Rejected (ErrorObject "offline"))) as (_ & _ & _ & H).
  apply H. right. right. now exists (ErrorObject "offline").
Defined.

Lemma getUserResponse_of_entry (responses : list Response.t) (st : State)
      (userId : string) (entry : Entry.t) :
  optimisticResponses st !! userId = Some entry ->
  exists r, getUserResponse responses st userId = Some r /\
            Response.status r = Entry.status entry /\
            Response.note r = Some (Entry.note entry) /\
            Response.transport r = Entry.transport entry.
Proof.
  intros H. unfold getUserResponse. rewrite H. eexists. repeat split.
Qed.



(** Setting a status and toggling it off again is a round trip. For a
    user without a response: after the submit has succeeded and its echo
    is merged, the echo is the effective response; the same click again is
    a delete, and after it has succeeded and is merged the user has no
    response, and repository and overlay are what they were. *)
Theorem set_then_toggle_off
        (responses : list Response.t) (st : State) (userId : string)
        (status : ResponseStatus) (echo : Response.t) :
  GolfUtils.findUserResponse responses userId = None ->
  optimisticResponses st !! userId = None ->
  Response.status echo = status ->
  UserRef.id (Response.user echo) = userId ->
  let merged1 := Sessions.submitResponse responses userId (inr echo) in
  let run1 := handleStatusClick responses st userId status
                                (Resolved (snd merged1)) in
  let merged2 := Sessions.deleteResponse (fst merged1) userId (inr tt) in
  let run2 := handleStatusClick (fst merged1) (fst (fst run1)) userId status
                                (Resolved (snd merged2)) in
  getUserResponse (fst merged1) (fst (fst run1)) userId = Some echo /\
  snd run2 = DeleteMutation userId /\
  getUserResponse (fst merged2) (fst (fst run2)) userId = None /\
  fst merged2 = responses /\
  optimisticResponses (fst (fst run2)) = optimisticResponses st.
Proof.
  intros Hnone Hov Hstatus Hecho merged1 run1 merged2 run2.
  assert (effectiveStatus responses st userId <> Some status) as Hother
      by (unfold effectiveStatus, getUserResponse; now rewrite Hov, Hnone).
  assert (fst (fst run1)
          = setSubmittingResponse None
              (clearEntry userId
                 (putEntry userId
                    (Entry.mk status (noteOr None) (Some (transportOr None)))
                    (setError None (setSubmittingResponse (Some userId) st)))))
    as Hst1.
  { subst run1. unfold handleStatusClick.
    rewrite (handleStatusClick_start_other _ _ _ _ Hother). cbn zeta.
    unfold getUserResponse. rewrite Hov, Hnone. reflexivity. }
  assert (optimisticResponses (fst (fst run1)) = optimisticResponses st) as Hov1.
  { rewrite Hst1. simpl. rewrite delete_insert_eq. now apply delete_id. }
  assert (GolfUtils.findUserResponse (fst merged1) userId = Some echo) as Hfind
      by (apply findUserResponse_after_submit; exact Hecho).
  assert (getUserResponse (fst merged1) (fst (fst run1)) userId = Some echo) as Hget.
  { unfold getUserResponse. now rewrite Hov1, Hov. }
  assert (effectiveStatus (fst merged1) (fst (fst run1)) userId = Some status)
    as Hsame by (unfold effectiveStatus; rewrite Hget; simpl; now rewrite Hstatus).
  assert (fst merged2 = responses) as Hback.
  { subst merged2 merged1. simpl. rewrite List.filter_app. simpl.
    rewrite (proj2 (String.eqb_eq _ _) Hecho). simpl. rewrite app_nil_r.
    rewrite filter_not_user_idem.
    clear - Hnone. unfold GolfUtils.findUserResponse in Hnone.
    induction responses as [|r rs IH]; [reflexivity|]. simpl in *.
    destruct (String.eqb (UserRef.id (Response.user r)) userId); [discriminate|].
    simpl. now rewrite IH. }
  assert (fst (fst run2)
          = setSubmittingResponse None
              (clearEntry userId
                 (setError None
                    (setSubmittingResponse (Some userId) (fst (fst run1))))) /\
          snd run2 = DeleteMutation userId) as [Hst2 Hm2].
  { subst run2. unfold handleStatusClick.
    rewrite (handleStatusClick_start_same _ _ _ _ Hsame). now split. }
  assert (optimisticResponses (fst (fst run2)) = optimisticResponses st) as Hov2.
  { rewrite Hst2. simpl. rewrite Hov1. now apply delete_id. }
  split; [exact Hget|]. split; [exact Hm2|].
  split; [|split; [exact Hback | exact Hov2]].
  unfold getUserResponse. now rewrite Hov2, Hov, Hback.
Qed.

Lemma set_then_toggle_off_witness :
  let echo := Response.mk "r9" OUT (Some "") (Some WALKING) (UserRef.mk "u2" "Bo") in
  let merged1 := Sessions.submitResponse [Examples.ridingIn] "u2" (inr echo) in
  let run1 := handleStatusClick [Examples.ridingIn] initial "u2" OUT
                                (Resolved (snd merged1)) in
  let merged2 := Sessions.deleteResponse (fst merged1) "u2" (inr tt) in
  let run2 := handleStatusClick (fst merged1) (fst (fst run1)) "u2" OUT
                                (Resolved (snd merged2)) in
  getUserResponse (fst merged1) (fst (fst run1)) "u2" = Some echo /\
  snd run2 = DeleteMutation "u2" /\
  getUserResponse (fst merged2) (fst (fst run2)) "u2" = None /\
  fst merged2 = [Examples.ridingIn] /\
  optimisticResponses (fst (fst run2)) = optimisticResponses initial.
Proof.
  intros echo.
  apply (set_then_toggle_off [Examples.ridingIn] initial "u2" OUT echo);
    reflexivity.
Defined.

(** The timer of a transport change that succeeded removes whatever
    overlay entry the user has when it fires. An edit of the same user
    started within the 100 ms loses its entry while its own request is
    still awaited, and the user is still marked as submitting. *)
Theorem settle_timer_clears_newer_entry
        (responses responses' : list Response.t) (st : State) (userId : string)
        (transport : TransportType) (result : Result.t)
        (status : ResponseStatus) (early late : Z) :
  Result.success result = true ->
  Forall (fun t => Timer.userId t <> userId) (timers st) ->
  (0 <= early < 100)%Z -> (100 <= early + late)%Z ->
  let st1 := fst (fst (handleTransportChange responses st userId transport
                                             (Resolved result))) in
  let st2 := advance early st1 in
  effectiveStatus responses' st2 userId <> Some status ->
  let st3 := fst (fst (handleStatusClick_start responses' st2 userId status)) in
  let st4 := advance late st3 in
  (exists entry, optimisticResponses st3 !! userId = Some entry /\
                 Entry.status entry = status) /\
  optimisticResponses st4 !! userId = None /\
  isSubmitting st4 userId = true /\
  getUserResponse responses' st4 userId
  = GolfUtils.findUserResponse responses' userId.
Proof.
  intros Hok Hnone Hearly Hlate st1 st2 Hother st3 st4.
  assert (st1 = setTimeout userId 100
                  (putEntry userId
                     (Entry.mk (statusOr (getUserResponse responses st userId))
                               (noteOr (getUserResponse responses st userId))
                               (Some transport))
                     (setError None st))) as Hst1.
  { subst st1. unfold handleTransportChange, handleTransportChange_start,
      handleTransportChange_settle. now rewrite Hok. }
  assert (exists old, timers st2
                      = (old ++ [Timer.mk (100 - early) userId])%list /\
                      Forall (fun t => Timer.userId t <> userId) old)
    as (old & Htimers2 & Hold).
  { subst st2. unfold advance. rewrite Hst1. simpl.
    rewrite List.filter_app, map_app. simpl.
    destruct (Z.leb_spec 100 early); [lia|]. simpl.
    eexists. split; [reflexivity|].
    apply List.Forall_forall. intros t Hin.
    apply in_map_iff in Hin as (t0 & <- & Hin0). simpl.
    apply filter_In in Hin0 as [Hin0 _].
    rewrite List.Forall_forall in Hnone. now apply Hnone. }
  assert (st3 = putEntry userId
                  (Entry.mk status (noteOr (getUserResponse responses' st2 userId))
                            (Some (transportOr (getUserResponse responses' st2 userId))))
                  (setError None (setSubmittingResponse (Some userId) st2)))
    as Hst3.
  { subst st3. now rewrite (handleStatusClick_start_other _ _ _ _ Hother). }
  assert (optimisticResponses st4 !! userId = None) as Hgone.
  { subst st4. rewrite lookup_advance.
    assert (timers st3 = timers st2) as -> by (rewrite Hst3; reflexivity).
    rewrite Htimers2, List.filter_app, existsb_app. simpl.
    destruct (Z.leb_spec (100 - early) late); [|lia]. simpl.
    now rewrite String.eqb_refl, orb_true_r. }
  split; [|split; [exact Hgone | split]].
  - rewrite Hst3. eexists. split; [apply lookup_putEntry_eq | reflexivity].
  - subst st4. unfold advance, isSubmitting. simpl.
    assert (forall due s,
               submittingResponse
                 (fold_left (fun s0 t => clearEntry (Timer.userId t) s0) due s)
               = submittingResponse s) as Hkeep
        by (induction due as [|t due IH]; intros s; simpl;
            [reflexivity | now rewrite IH]).
    rewrite Hkeep, Hst3. simpl. apply String.eqb_refl.
  - unfold getUserResponse. now rewrite Hgone.
Qed.

Lemma settle_timer_clears_newer_entry_witness :
  let st1 := fst (fst (handleTransportChange [Examples.ridingIn] initial "u1"
                         WALKING (Resolved Examples.succeeded))) in
  let st3 := fst (fst (handleStatusClick_start [Examples.ridingIn]
                         (advance 40 st1) "u1" OUT)) in
  optimisticResponses (advance 60 st3) !! "u1" = None /\
  isSubmitting (advance 60 st3) "u1" = true.
Proof.
  intros st1 st3.
  destruct (settle_timer_clears_newer_entry
              [Examples.ridingIn] [Examples.ridingIn] initial "u1" WALKING
              Examples.succeeded OUT 40 60) as (_ & Hgone & Hmark & _).
  - reflexivity.
  - constructor.
  - lia.
  - lia.
  - vm_compute. discriminate.
  - split; [exact Hgone | exact Hmark].
Defined.

(** Two edits of one user in flight. The second is built on the values
    the first one put into the overlay; and when the first one succeeds
    it removes the overlay entry, which by then is the second one's. *)
Theorem edits_in_flight
        (responses responses' : list Response.t) (st : State) (userId note : string)
        (transport : TransportType) (result : Result.t) :
  Result.success result = true ->
  let current := getUserResponse responses st userId in
  let st1 := fst (handleNoteChange_start responses st userId note) in
  let second := handleTransportChange_start responses' st1 userId transport in
  snd second
  = SubmitMutation (Payload.mk userId (statusOr current) (trim note) transport) /\
  optimisticResponses (fst second) !! userId
  = Some (Entry.mk (statusOr current) (trim note) (Some transport)) /\
  optimisticResponses
    (fst (handleNoteChange_settle userId (Resolved result) (fst second))) !! userId
  = None.
Proof.
  intros Hok current st1 second. subst second.
  unfold handleTransportChange_start.
  assert (getUserResponse responses' st1 userId
          = Some (Response.mk
                    (orElse (option_map Response.id
                               (GolfUtils.findUserResponse responses' userId))
                            ("optimistic-" ++ userId))
                    (statusOr current) (Some (trim note))
                    (Some (transportOr current))
                    (match GolfUtils.findUserResponse responses' userId with
                     | Some r => Response.user r
                     | None => UserRef.mk userId ""
                     end))) as ->.
  { subst st1. unfold handleNoteChange_start, getUserResponse at 1. simpl.
    now rewrite lookup_insert_eq. }
  assert (noteOr (Some (Response.mk
                          (orElse (option_map Response.id
                                     (GolfUtils.findUserResponse responses' userId))
                                  ("optimistic-" ++ userId))
                          (statusOr current) (Some (trim note))
                          (Some (transportOr current))
                          (match GolfUtils.findUserResponse responses' userId with
                           | Some r => Response.user r
                           | None => UserRef.mk userId ""
                           end)))
          = trim note) as ->.
  { unfold noteOr. simpl. now destruct (trim note). }
  simpl. split; [reflexivity|]. split; [apply lookup_insert_eq|].
  rewrite Hok. simpl. apply lookup_delete_eq.
Qed.

Lemma edits_in_flight_witness :
  snd (handleTransportChange_start [Examples.ridingIn]
         (fst (handleNoteChange_start [Examples.ridingIn] initial "u1" " late "))
         "u1" WALKING)
  = SubmitMutation (Payload.mk "u1" IN "late" WALKING).
Proof.
  destruct (edits_in_flight [Examples.ridingIn] [Examples.ridingIn] initial
              "u1" " late " WALKING Examples.succeeded eq_refl) as (H & _).
  exact H.
Defined.





(** Saving a comment from the session card submits nothing for a past
    session or for a user without a response. Otherwise it submits the
    effective status and the trimmed comment, no note at all when the
    comment is blank, and never a transport: what is sent to the backend
    has a null transport, whatever transport the user has. *)
Theorem handleSaveComment_spec
        (responses : list Response.t) (st : State)
        (currentUserId comment sessionId : string) :
  SessionCard.handleSaveComment responses st true currentUserId comment
  = SessionCard.PastSession /\
  (getUserResponse responses st currentUserId = None ->
   SessionCard.handleSaveComment responses st false currentUserId comment
   = SessionCard.StatusRequired) /\
  (forall current,
      getUserResponse responses st currentUserId = Some current ->
      exists responseData,
        SessionCard.handleSaveComment responses st false currentUserId comment
        = SessionCard.Submits responseData /\
        SessionApi.ResponseData.userId responseData = currentUserId /\
        SessionApi.ResponseData.status responseData = Response.status current /\
        SessionApi.ResponseData.transport responseData = None /\
        SessionApi.Input.transport (SessionApi.submitInput sessionId responseData)
        = None /\
        (trim comment = "" ->
         SessionApi.Input.note (SessionApi.submitInput sessionId responseData)
         = None) /\
        (trim comment <> "" ->
         SessionApi.Input.note (SessionApi.submitInput sessionId responseData)
         = Some (trim comment))).
Proof.
  unfold SessionCard.handleSaveComment. split; [reflexivity|].
  split; [now intros ->|]. intros current ->.
  eexists. split; [reflexivity|]. simpl. repeat (split; [reflexivity|]).
  destruct (trim comment) as [|c t] eqn:E; simpl.
  - split; [reflexivity | congruence].
  - split; [discriminate | reflexivity].
Qed.

Lemma handleSaveComment_spec_witness :
  SessionCard.handleSaveComment [Examples.ridingIn] initial false "u1" " see you "
  = SessionCard.Submits (SessionApi.ResponseData.mk "u1" IN (Some "see you") None).
Proof.
  destruct (handleSaveComment_spec [Examples.ridingIn] initial "u1" " see you " "s1")
    as (_ & _ & H).
  destruct (H Examples.ridingIn eq_refl) as (d & Hd & _).
  rewrite Hd. vm_compute in Hd. now injection Hd as <-.
Defined.











End HookMore.


(** * The remaining utilities and the list of sessions *)

Section RestFacts.
Import JsString.

Section DayFacts.
Variable dayOf : string -> option Z.
Variable today : Z.

Lemma firstTodayOrLater_Some (sessions : list GolfSession.t) :
  forall start i,
    RestGolfUtils.firstTodayOrLater dayOf today sessions start = Some i ->
    (start <= i < start + List.length sessions)%nat /\
    (exists s, nth_error sessions (i - start) = Some s /\
               RestGolfUtils.isTodayOrLater dayOf today s = true) /\
    (forall j s, (j < i - start)%nat -> nth_error sessions j = Some s ->
                 RestGolfUtils.isTodayOrLater dayOf today s = false).
Proof.
  induction sessions as [|s rest IH]; intros start i H; simpl in H; [discriminate|].
  destruct (RestGolfUtils.isTodayOrLater dayOf today s) eqn:E.
  - injection H as <-. simpl. split; [lia|]. rewrite Nat.sub_diag. split.
    + now exists s.
    + intros j s' Hj. lia.
  - apply IH in H as (Hrange & (s' & Hnth & Hlater) & Hbefore).
    simpl. split; [lia|].
    replace (i - start)%nat with (S (i - S start)) by lia. split.
    + now exists s'.
    + intros j s'' Hj Hnth'. destruct j as [|j]; simpl in Hnth'.
      * now injection Hnth' as <-.
      * apply (Hbefore j); [lia | exact Hnth'].
Qed.

Lemma firstTodayOrLater_None (sessions : list GolfSession.t) :
  forall start,
    RestGolfUtils.firstTodayOrLater dayOf today sessions start = None <->
    (forall s, In s sessions -> RestGolfUtils.isTodayOrLater dayOf today s = false).
Proof.
  induction sessions as [|s rest IH]; intros start; simpl.
  - split; [intros _ s [] | reflexivity].
  - destruct (RestGolfUtils.isTodayOrLater dayOf today s) eqn:E.
    + split; [discriminate|]. intros H. specialize (H s (or_introl eq_refl)).
      congruence.
    + rewrite IH. split.
      * intros H s' [<- | Hin]; auto.
      * intros H s' Hin. apply H. now right.
Qed.

(** The REST version: the index is a position of the list (0 for the
    empty list), the position of the first session of today or later;
    when every session is before today, or unreadable, it is the last
    position. *)
Theorem rest_findUpcomingSessionIndex_spec (sessions : list GolfSession.t) :
  let i := RestGolfUtils.findUpcomingSessionIndex dayOf today sessions in
  (sessions <> [] -> (i < List.length sessions)%nat) /\
  (sessions = [] -> i = 0%nat) /\
  ((exists s, In s sessions /\ RestGolfUtils.isTodayOrLater dayOf today s = true) ->
   (exists s, nth_error sessions i = Some s /\
              RestGolfUtils.isTodayOrLater dayOf today s = true) /\
   (forall j s, (j < i)%nat -> nth_error sessions j = Some s ->
                RestGolfUtils.isTodayOrLater dayOf today s = false)) /\
  ((forall s, In s sessions ->
              RestGolfUtils.isTodayOrLater dayOf today s = false) ->
   i = (List.length sessions - 1)%nat).
Proof.
  unfold RestGolfUtils.findUpcomingSessionIndex. cbv zeta.
  destruct (RestGolfUtils.firstTodayOrLater dayOf today sessions 0)
    as [i|] eqn:E.
  - apply firstTodayOrLater_Some in E as (Hrange & Hat & Hbefore).
    rewrite Nat.sub_0_r in *.
    split; [intros _; lia|]. split; [intros ->; simpl in Hrange; lia|]. split.
    + intros _. split; [exact Hat | exact Hbefore].
    + intros Hnone. destruct Hat as (s & Hnth & Hlater).
      apply nth_error_In in Hnth. rewrite (Hnone s Hnth) in Hlater. discriminate.
  - pose proof (proj1 (firstTodayOrLater_None sessions 0) E) as Hnone.
    destruct sessions as [|s0 rest]; simpl.
    + split; [intros H; contradiction|]. split; [reflexivity|].
      split; [intros (s & [] & _) | reflexivity].
    + split; [intros _; lia|]. split; [discriminate|]. split.
      * intros (s & Hin & Hlater). rewrite (Hnone s Hin) in Hlater. discriminate.
      * reflexivity.
Qed.
End DayFacts.

Lemma rest_findUpcomingSessionIndex_spec_witness :
  let dayOf := fun s : string => if String.eqb s "monday" then Some 100%Z
                                 else None in
  let mk := fun d => GolfSession.mk d d d None Examples.alice [] None in
  RestGolfUtils.findUpcomingSessionIndex dayOf 200 [mk "monday"; mk "garbled"]
  = 1%nat.
Proof.
  intros dayOf mk.
  destruct (rest_findUpcomingSessionIndex_spec dayOf 200
              [mk "monday"; mk "garbled"]) as (_ & _ & _ & H).
  rewrite H; [reflexivity|].
  intros s [<- | [<- | []]]; reflexivity.
Defined.



End RestFacts.


Section LastFacts.
Import Api.

Lemma retryLoop_after_transients (fetch : nat -> FetchResult) (k : nat)
      (out : Outcome) :
  (k <= 4)%nat ->
  (forall remaining lastError lastResponse trace,
      retryLoop fetch (S remaining) k lastError lastResponse trace
      = (out, extend trace k)) ->
  forall d attempt remaining lastError lastResponse trace,
    (attempt + d = k)%nat -> (d <= remaining)%nat ->
    (forall j, (attempt <= j < k)%nat -> transientFailure (fetch j)) ->
    retryLoop fetch (S remaining) attempt lastError lastResponse trace
    = (out, fold_left extend (seq attempt (S d)) trace).
Proof.
  intros Hk Hlast.
  induction d as [|d IH];
    intros attempt remaining lastError lastResponse trace Hsum Hrem Hall.
  - assert (attempt = k) as -> by lia. apply Hlast.
  - destruct (retryLoop_transient fetch remaining attempt lastError lastResponse
                trace (Hall attempt ltac:(lia))) as (err & lr & _ & ->).
    assert ((attempt =? maxRetries RETRY_CONFIG)%nat = false) as ->
        by (apply Nat.eqb_neq; simpl; lia).
    destruct remaining as [|remaining]; [lia|].
    rewrite (IH (S attempt) remaining (Some err) lr (extend trace attempt));
      [reflexivity | lia | lia | intros j Hj'; apply Hall; lia].
Qed.

(** A failure that is not retryable ends the request at whatever attempt
    it occurs: after transient failures, an answer that is not ok and
    whose error the classifier rejects is thrown at once, and no further
    attempt is made. *)
Theorem apiRequest_stops_at_permanent_failure
        (fetch : nat -> FetchResult) (k : nat) (r : Response) :
  (k <= maxRetries RETRY_CONFIG)%nat ->
  (forall j, (j < k)%nat -> transientFailure (fetch j)) ->
  fetch k = inr r -> ok r = false ->
  isRetryableError (httpError r) (Some r) = false ->
  apiRequest fetch = (Thrown (Some (httpError r)), Trace.schedule (S k)) /\
  attempts (snd (apiRequest fetch)) = S k.
Proof.
  intros Hk Hall Hf Hok Hno. change (maxRetries RETRY_CONFIG) with 4%nat in Hk.
  assert (apiRequest fetch = (Thrown (Some (httpError r)), Trace.schedule (S k)))
    as Heq.
  { unfold apiRequest. change (maxRetries RETRY_CONFIG) with 4%nat.
    apply (retryLoop_after_transients fetch k (Thrown (Some (httpError r))) Hk)
      with (d := k) (attempt := 0%nat);
      [|lia | lia | intros j Hj'; apply Hall; lia].
    intros remaining lastError lastResponse trace.
    now apply retryLoop_permanent. }
  split; [exact Heq|]. rewrite Heq. simpl snd.
  apply schedule_facts. lia.
Qed.

Lemma apiRequest_stops_at_permanent_failure_witness :
  apiRequest (fun attempt => match attempt with
                             | O => inl (mkError "Request timeout")
                             | _ => inr Examples.notFound
                             end)
  = (Thrown (Some (mkError "HTTP 404")), [Fetch 0; Sleep 1500; Fetch 1]).
Proof.
  apply (apiRequest_stops_at_permanent_failure
           (fun attempt => match attempt with
                           | O => inl (mkError "Request timeout")
                           | _ => inr Examples.notFound
                           end) 1 Examples.notFound).
  - simpl. lia.
  - intros j Hj. assert (j = 0%nat) as -> by lia.
    exists (mkError "Request timeout"). split; reflexivity.
  - reflexivity.
  - reflexivity.
  - reflexivity.
Defined.
End LastFacts.

Section SessionListFacts.
Import SessionsState.

Lemma find_session_filter (id other : string) (l : list GolfSession.t) :
  other <> id ->
  List.find (fun s => String.eqb (GolfSession.id s) other)
    (List.filter (fun s => negb (String.eqb (GolfSession.id s) id)) l)
  = List.find (fun s => String.eqb (GolfSession.id s) other) l.
Proof.
  intros Hne. induction l as [|s l IH]; [reflexivity|]. simpl.
  destruct (String.eqb (GolfSession.id s) id) eqn:E; simpl.
  - apply String.eqb_eq in E.
    rewrite (proj2 (String.eqb_neq (GolfSession.id s) other)) by congruence.
    exact IH.
  - now rewrite IH.
Qed.

Lemma find_session_replaced (id other : string) (updated : GolfSession.t)
      (l : list GolfSession.t) :
  GolfSession.id updated = id ->
  List.find (fun s => String.eqb (GolfSession.id s) other)
    (map (fun s => if String.eqb (GolfSession.id s) id then updated else s) l)
  = if String.eqb id other
    then match List.find (fun s => String.eqb (GolfSession.id s) id) l with
         | Some _ => Some updated
         | None => None
         end
    else List.find (fun s => String.eqb (GolfSession.id s) other) l.
Proof.
  intros Hid. induction l as [|s l IH]; simpl.
  - now destruct (String.eqb id other).
  - destruct (String.eqb (GolfSession.id s) id) eqn:E.
    + rewrite Hid. destruct (String.eqb id other) eqn:E'; [reflexivity|].
      apply String.eqb_eq in E. rewrite E, E'. rewrite IH, ?E'. reflexivity.
    + rewrite IH. destruct (String.eqb id other) eqn:E'.
      * apply String.eqb_eq in E'. subst other. now rewrite E.
      * reflexivity.
Qed.

(** The lookups of a session after an edit of the list. A deleted
    session is not found any more, and has no statistics; a session that
    is updated under its own id is found as updated, and updating an id
    that is not in the list changes nothing; a created session is found
    under its id unless an older session has that id, which is then still
    the one found. The sessions with other ids are found as before. A
    failed call leaves the list alone and records the message. *)
Theorem session_list_edits (st : State) (id : string) :
  (forall u,
      let st' := fst (deleteSession st id (inr u)) in
      getSessionById st' id = None /\
      getSessionStats st' id = None /\
      (forall other, other <> id ->
                     getSessionById st' other = getSessionById st other)) /\
  (forall updated,
      GolfSession.id updated = id ->
      let st' := fst (updateSession st id (inr updated)) in
      (forall old, getSessionById st id = Some old ->
                   getSessionById st' id = Some updated) /\
      (getSessionById st id = None -> sessions st' = sessions st) /\
      List.length (sessions st') = List.length (sessions st) /\
      (forall other, other <> id ->
                     getSessionById st' other = getSessionById st other)) /\
  (forall created,
      GolfSession.id created = id ->
      let st' := fst (createSession st (inr created)) in
      (getSessionById st id = None -> getSessionById st' id = Some created) /\
      (forall old, getSessionById st id = Some old ->
                   getSessionById st' id = Some old) /\
      (forall other, other <> id ->
                     getSessionById st' other = getSessionById st other)) /\
  (forall err,
      deleteSession st id (inl err)
      = (mkState (sessions st) (Some (messageOf err "Failed to delete session")),
         Result.mk false (Some (messageOf err "Failed to delete session"))) /\
      updateSession st id (inl err)
      = (mkState (sessions st) (Some (messageOf err "Failed to update session")),
         Result.mk false (Some (messageOf err "Failed to update session"))) /\
      createSession st (inl err)
      = (mkState (sessions st) (Some (messageOf err "Failed to create session")),
         Result.mk false (Some (messageOf err "Failed to create session")))).
Proof.
  assert (forall l,
             List.find (fun s => String.eqb (GolfSession.id s) id)
               (List.filter (fun s => negb (String.eqb (GolfSession.id s) id)) l)
             = None) as Hgone.
  { induction l as [|s l IH]; [reflexivity|]. simpl.
    destruct (String.eqb (GolfSession.id s) id) eqn:E; simpl;
      [exact IH | now rewrite E]. }
  assert (forall other created l,
             List.find (fun s => String.eqb (GolfSession.id s) other)
                       (l ++ [created])%list
             = match List.find (fun s => String.eqb (GolfSession.id s) other) l with
               | Some s => Some s
               | None => if String.eqb (GolfSession.id created) other
                         then Some created else None
               end) as Happ.
  { intros other created l. induction l as [|s l IH]; simpl; [reflexivity|].
    destruct (String.eqb (GolfSession.id s) other); [reflexivity | exact IH]. }
  split; [|split; [|split]].
  - intros u st'. subst st'. unfold getSessionStats, getSessionById. simpl.
    rewrite Hgone. split; [reflexivity|]. split; [reflexivity|].
    intros other Hne. now apply find_session_filter.
  - intros updated Hid st'. subst st'. unfold getSessionById. simpl.
    split; [|split; [|split]].
    + intros old Hold. rewrite (find_session_replaced id id updated _ Hid).
      now rewrite String.eqb_refl, Hold.
    + intros Hnone. rewrite <- (map_id (sessions st)) at 2.
      apply map_ext_in. intros s Hin.
      destruct (String.eqb (GolfSession.id s) id) eqn:E; [|reflexivity].
      apply (find_none _ _ Hnone) in Hin. congruence.
    + apply length_map.
    + intros other Hne. rewrite (find_session_replaced id other updated _ Hid).
      now rewrite (proj2 (String.eqb_neq id other)) by congruence.
  - intros created Hid st'. subst st'. unfold getSessionById. simpl.
    rewrite !Happ. split; [|split].
    + intros ->. now rewrite Hid, String.eqb_refl.
    + now intros old ->.
    + intros other Hne. rewrite Happ, Hid.
      rewrite (proj2 (String.eqb_neq id other)) by congruence.
      now destruct (List.find _ (sessions st)).
  - intros err. repeat split.
Qed.

Lemma session_list_edits_witness :
  let session := GolfSession.mk "s1" "Saturday" "2026-05-02" None
                   Examples.alice [Examples.ridingIn] None in
  let renamed := GolfSession.mk "s1" "Sunday" "2026-05-03" None
                   Examples.alice [Examples.ridingIn] None in
  getSessionById (fst (updateSession (mkState [session] None) "s1" (inr renamed)))
                 "s1"
  = Some renamed.
Proof.
  intros session renamed.
  destruct (session_list_edits (mkState [session] None) "s1") as (_ & H & _).
  destruct (H renamed eq_refl) as (Hfound & _).
  apply (Hfound session). reflexivity.
Defined.
End SessionListFacts.
